(** * gas-client: the Promise adapter and its development bridge

    A shallow embedding of [src/index.ts].  The file has three parts:
    the JavaScript data the code touches (values, thrown errors, the
    page state), the code itself ([checkAllowList], the [Server]
    constructor, [receiveMessageHandler], the proxy's [get] trap and the
    two kinds of generated functions), and the properties proved about
    it. *)

From Stdlib Require Import String Ascii List.
From stdpp Require Import base option list gmap strings pretty.

Set Warnings "-register-all,-clear-no-such-hyp".
Open Scope string_scope.
Open Scope list_scope.

(** ** JavaScript data *)

(** The values that travel through the bridge: what [postMessage]'s
    structured clone delivers, and what a configuration field or a
    predicate's return value may hold.  None of them is callable, so none
    is a thenable.  Numbers are opaque payloads here: nothing in the code
    computes with them. *)
Inductive value :=
  | VUndefined
  | VNull
  | VBool (b : bool)
  | VNum (n : Z)
  | VStr (s : string)
  | VArr (items : list value)
  | VObj (fields : list (string * value)).

(** An [Error] instance, as thrown by the engine or the host. *)
Record js_error := JsError { err_name : string; err_message : string }.

(** Completion of a computation that may throw. *)
Inductive result (A : Type) :=
  | Normal (a : A)
  | Throw (e : js_error).
Arguments Normal {A} a.
Arguments Throw {A} e.

Definition TypeError (message : string) : js_error := JsError "TypeError" message.

(** [Error.prototype.toString]: the name, the message, or both joined
    by a colon and a space. *)
Definition error_toString (err : js_error) : string :=
  if String.eqb (err_name err) "" then err_message err
  else if String.eqb (err_message err) "" then err_name err
  else err_name err +:+ ": " +:+ err_message err.

(** [v === s] for a string literal [s]. *)
Definition strict_eq_string (v : value) (s : string) : bool :=
  match v with
  | VStr t => String.eqb t s
  | _ => false
  end.

(** [v === true]. *)
Definition strict_eq_true (v : value) : bool :=
  match v with
  | VBool true => true
  | _ => false
  end.

(** Own property lookup in an object literal's field list. *)
Fixpoint own_property (fields : list (string * value)) (k : string) : value :=
  match fields with
  | [] => VUndefined
  | (k', v) :: rest => if String.eqb k' k then v else own_property rest k
  end.

(** [v.k] for the property names the handler reads ([type], [response],
    [status], [id]).  No built-in prototype defines any of them, so a
    primitive or an array yields [undefined]; reading a property of
    [null] or [undefined] throws. *)
Definition get_prop (v : value) (k : string) : result value :=
  match v with
  | VUndefined =>
      Throw (TypeError ("Cannot read properties of undefined (reading '" +:+ k +:+ "')"))
  | VNull =>
      Throw (TypeError ("Cannot read properties of null (reading '" +:+ k +:+ "')"))
  | VObj fields => Normal (own_property fields k)
  | _ => Normal VUndefined
  end.

(** [s.split(sep)] for a one-character separator: the pieces between
    consecutive separators, empty pieces included. *)
Fixpoint split (sep : ascii) (s : string) : list string :=
  match s with
  | EmptyString => [EmptyString]
  | String c rest =>
      if Ascii.eqb c sep then EmptyString :: split sep rest
      else match split sep rest with
           | piece :: pieces => String c piece :: pieces
           | [] => [String c EmptyString]
           end
  end.

(** Whether the separator occurs in a string. *)
Fixpoint contains (sep : ascii) (s : string) : bool :=
  match s with
  | EmptyString => false
  | String c rest => Ascii.eqb c sep || contains sep rest
  end.

(** [pieces.join(sep)], the inverse of [split]. *)
Fixpoint join (sep : ascii) (pieces : list string) : string :=
  match pieces with
  | [] => EmptyString
  | [piece] => piece
  | piece :: rest => piece +:+ String sep (join sep rest)
  end.

(** What the engine and the [uuid] package provide.  [ToPropertyKey]
    turns the [id] of a message into the property name looked up in the
    table; only its behaviour on strings is fixed here.  [uuidv4] is the
    sequence of identifiers the random generator hands out, indexed by
    the number of draws made so far. *)
Class Engine := {
  uuidv4 : nat → string;
  toPropertyKey : value → result string;
  toPropertyKey_string : ∀ s, toPropertyKey (VStr s) = Normal s;
}.

(** ** Configuration *)

(** [config.allowedDevelopmentDomains] at run time: a function of the
    origin, or any other value, [undefined] when the field or the whole
    config is absent.  The function is the caller's; it is taken to
    return normally and to leave the page state alone. *)
Inductive AllowedDevelopmentDomains :=
  | AllowValue (v : value)
  | AllowFunction (f : string → value).

Definition typeof_value (v : value) : string :=
  match v with
  | VUndefined => "undefined"
  | VBool _ => "boolean"
  | VNum _ => "number"
  | VStr _ => "string"
  | VNull | VArr _ | VObj _ => "object"
  end.

Definition typeof (a : AllowedDevelopmentDomains) : string :=
  match a with
  | AllowValue v => typeof_value v
  | AllowFunction _ => "function"
  end.

Record ServerConfig := { allowedDevelopmentDomains : AllowedDevelopmentDomains }.

(** [config?.allowedDevelopmentDomains]. *)
Definition config_allowedDevelopmentDomains (config : option ServerConfig)
  : AllowedDevelopmentDomains :=
  match config with
  | Some c => allowedDevelopmentDomains c
  | None => AllowValue VUndefined
  end.

(** [checkAllowList], lines 10-23. *)
Definition checkAllowList (allowed : AllowedDevelopmentDomains) (origin : string)
  : bool :=
  match allowed with
  | AllowValue (VStr s) =>
      existsb (λ permittedOrigin, String.eqb permittedOrigin origin) (split " " s)
  | AllowFunction f => strict_eq_true (f origin)
  | AllowValue _ => false
  end.

(** ** The page *)

(** The two resolving functions of the Promise numbered [p]. *)
Inductive callback :=
  | ResolveOf (p : nat)
  | RejectOf (p : nat).

(** An entry of [window.gasStore]. *)
Record entry := Entry { resolve : callback; reject : callback }.

Inductive promise_state :=
  | Pending
  | Fulfilled (v : value)
  | Rejected (v : value).

(** The message handed to [window.parent.postMessage]. *)
Record request := Request {
  req_type : string;
  req_id : string;
  req_functionName : string;
  req_args : list value;
}.

(** A call handed to [google.script.run] with its two handlers. *)
Record host_call := HostCall {
  hc_functionName : string;
  hc_args : list value;
  hc_success : callback;
  hc_failure : callback;
}.

(** The state of the page the code reads and writes.  [gasStore] is
    the global table ([window.gasStore], an object by its declared type);
    [promises] holds the state of every Promise created so far, a
    Promise being its index; [posted] is the sequence of
    [window.parent.postMessage(message, targetOrigin)] calls;
    [listeners] the registered message listeners, each one the config
    its closure captured; [draws] counts the calls of [uuidv4];
    [invocations] records each call of a resolving function, in order,
    with its argument. *)
Record window := Window {
  gasStore : gmap string entry;
  promises : list promise_state;
  posted : list (request * string);
  hostCalls : list host_call;
  listeners : list (option ServerConfig);
  draws : nat;
  location_origin : string;
  invocations : list (callback * value);
}.

(** Computations over the page that may throw. *)
Definition M (A : Type) : Type := window → result A * window.

Definition throw {A} (e : js_error) : M A := λ w, (Throw e, w).
Definition lift {A} (r : result A) : M A := λ w, (r, w).
Definition gets {A} (f : window → A) : M A := λ w, (Normal (f w), w).
Definition modify (f : window → window) : M unit := λ w, (Normal tt, f w).

#[export] Instance M_ret : MRet M := λ A a w, (Normal a, w).
#[export] Instance M_bind : MBind M := λ A B k m w,
  match m w with
  | (Normal a, w') => k a w'
  | (Throw e, w') => (Throw e, w')
  end.

(** Field updates of the page state. *)
Definition set_gasStore (f : gmap string entry → gmap string entry) (w : window) : window :=
  Window (f (gasStore w)) (promises w) (posted w) (hostCalls w) (listeners w)
         (draws w) (location_origin w) (invocations w).
Definition set_promises (f : list promise_state → list promise_state) (w : window) : window :=
  Window (gasStore w) (f (promises w)) (posted w) (hostCalls w) (listeners w)
         (draws w) (location_origin w) (invocations w).
Definition set_posted (f : list (request * string) → list (request * string)) (w : window) : window :=
  Window (gasStore w) (promises w) (f (posted w)) (hostCalls w) (listeners w)
         (draws w) (location_origin w) (invocations w).
Definition set_hostCalls (f : list host_call → list host_call) (w : window) : window :=
  Window (gasStore w) (promises w) (posted w) (f (hostCalls w)) (listeners w)
         (draws w) (location_origin w) (invocations w).
Definition set_listeners (f : list (option ServerConfig) → list (option ServerConfig)) (w : window) : window :=
  Window (gasStore w) (promises w) (posted w) (hostCalls w) (f (listeners w))
         (draws w) (location_origin w) (invocations w).
Definition set_draws (f : nat → nat) (w : window) : window :=
  Window (gasStore w) (promises w) (posted w) (hostCalls w) (listeners w)
         (f (draws w)) (location_origin w) (invocations w).
Definition set_invocations (f : list (callback * value) → list (callback * value)) (w : window) : window :=
  Window (gasStore w) (promises w) (posted w) (hostCalls w) (listeners w)
         (draws w) (location_origin w) (f (invocations w)).

(** ** Promises *)

(** A resolving function settles its Promise only while it is pending;
    a later call, of either function, changes nothing.  The argument is
    never a thenable, so resolving fulfils at once. *)
Definition settle (p : nat) (s : promise_state) (ps : list promise_state)
  : list promise_state :=
  match ps !! p with
  | Some Pending => <[p := s]> ps
  | _ => ps
  end.

Definition callback_effect (cb : callback) (v : value)
  : list promise_state → list promise_state :=
  match cb with
  | ResolveOf p => settle p (Fulfilled v)
  | RejectOf p => settle p (Rejected v)
  end.

(** [cb(v)] for a resolving function [cb]; it never throws. *)
Definition call (cb : callback) (v : value) : M unit :=
  modify (λ w, set_invocations (λ l, l ++ [(cb, v)])
                 (set_promises (callback_effect cb v) w)).

(** [new Promise(executor)]: the Promise is created pending and the
    executor runs at once with its two resolving functions.  Both
    executors of the code only store or pass the functions on. *)
Definition new_Promise (executor : callback → callback → window → window) : M nat :=
  λ w, let p := length (promises w) in
       (Normal p, executor (ResolveOf p) (RejectOf p)
                    (set_promises (λ ps, ps ++ [Pending]) w)).

(** ** The generated functions *)

(** A function found in [serverFunctions]: the production wrapper
    around the host function [functionName] (lines 52-58), or the
    closure the proxy's [get] trap returns (lines 106-119), which has
    captured [id], [functionName] and [promise]. *)
Inductive server_function :=
  | HostFunction (functionName : string)
  | BridgeFunction (id : string) (functionName : string) (promise : nat).

(** [f(...args)]. *)
Definition call_function (f : server_function) (args : list value) : M nat :=
  match f with
  | HostFunction functionName =>
      new_Promise (λ resolve reject,
        set_hostCalls (λ l, l ++ [HostCall functionName args resolve reject]))
  | BridgeFunction id functionName promise =>
      modify (λ w, set_posted
                (λ l, l ++ [(Request "REQUEST" id functionName args,
                             location_origin w)]) w);;
      mret promise
  end.

(** ** The message listener, lines 71-95 *)

Record MessageEvent := { origin : string; data : value }.

Definition receiveMessageHandler `{Engine}
    (config : option ServerConfig) (event : MessageEvent) : M unit :=
  let allowedDevelopmentDomains := config_allowedDevelopmentDomains config in
  let allowOrigin := checkAllowList allowedDevelopmentDomains (origin event) in
  if negb allowOrigin then mret tt else
  type ← lift (get_prop (data event) "type");
  if negb (strict_eq_string type "RESPONSE") then mret tt else
  response ← lift (get_prop (data event) "response");
  status ← lift (get_prop (data event) "status");
  id ← lift (get_prop (data event) "id");
  store ← gets gasStore;
  key ← lift (toPropertyKey id);
  match store !! key with
  | None =>
      (* [undefined] cannot be destructured; a member inherited from
         [Object.prototype] has no [resolve] or [reject] to call *)
      throw (TypeError "Cannot destructure property 'resolve' of 'window.gasStore[id]' as it is undefined.")
  | Some e =>
      (if strict_eq_string status "ERROR" then call (reject e) response
       else mret tt);;
      call (resolve e) response
  end.

(** ** The proxy's [get] trap, lines 100-120 *)

Definition handler_get `{Engine} (functionName : string) : M server_function :=
  id ← (λ w, (Normal (uuidv4 (draws w)), set_draws S w));
  promise ← new_Promise (λ resolve reject,
               set_gasStore <[id := Entry resolve reject]>);
  mret (BridgeFunction id functionName promise).

(** ** The constructor, lines 33-125 *)

(** What the constructor finds around it: the outcome of
    [Object.keys(google.script.run)], either the enumerable names or the
    error thrown on the way, and the outcome of evaluating
    [process?.env.NODE_ENV]. *)
Record environment := {
  run_keys : result (list string);
  NODE_ENV : result value;
}.

Inductive ServerFunctions :=
  | PlainObject (functions : gmap string server_function)
  | BridgeProxy.

Record Server := {
  _config : option ServerConfig;
  _serverFunctions : ServerFunctions;
}.

Definition ignoredFunctionNames : list string :=
  ["withFailureHandler"; "withLogger"; "withSuccessHandler"; "withUserObject"].

(** [names.includes(name)]. *)
Definition includes (names : list string) (name : string) : bool :=
  existsb (String.eqb name) names.

(** The reducer of lines 45-59 and the [reduce] around it. *)
Definition reducer (acc : gmap string server_function) (functionName : string)
  : gmap string server_function :=
  if includes ignoredFunctionNames functionName then acc
  else <[functionName := HostFunction functionName]> acc.

Definition production_functions (keys : list string) : gmap string server_function :=
  fold_left reducer keys ∅.

Definition google_is_not_defined : js_error :=
  JsError "ReferenceError" "google is not defined".

Definition Server_constructor (env : environment) (config : option ServerConfig)
  : M Server :=
  match run_keys env with
  | Normal keys =>
      mret {| _config := config;
              _serverFunctions := PlainObject (production_functions keys) |}
  | Throw err =>
      if String.eqb (error_toString err) "ReferenceError: google is not defined"
      then
        node_env ← lift (NODE_ENV env);
        if strict_eq_string node_env "development" then
          modify (set_gasStore (λ _, ∅));;
          modify (set_listeners (λ l, l ++ [config]));;
          mret {| _config := config; _serverFunctions := BridgeProxy |}
        else
          mret {| _config := config; _serverFunctions := PlainObject ∅ |}
      else
        mret {| _config := config; _serverFunctions := PlainObject ∅ |}
  end.

(** The accessor followed by a property read: [server.serverFunctions[name]]. *)
Definition serverFunctions_get `{Engine} (server : Server) (name : string)
  : M (option server_function) :=
  match _serverFunctions server with
  | PlainObject functions => mret (functions !! name)
  | BridgeProxy => f ← handler_get name; mret (Some f)
  end.

(** ** What happens on a page *)

(** The steps by which the code runs: a [Server] is constructed, a
    property of a bridge proxy is read, a generated function is called,
    a listener receives a message event.  An exception ends the step
    and leaves the page as it was when thrown. *)
Inductive action :=
  | Construct (env : environment) (config : option ServerConfig)
  | Get (functionName : string)
  | Call (f : server_function) (args : list value)
  | Receive (config : option ServerConfig) (event : MessageEvent).

Definition perform `{Engine} (a : action) (w : window) : window :=
  match a with
  | Construct env config => snd (Server_constructor env config w)
  | Get functionName => snd (handler_get functionName w)
  | Call f args => snd (call_function f args w)
  | Receive config event => snd (receiveMessageHandler config event w)
  end.

Definition run `{Engine} (actions : list action) (w : window) : window :=
  fold_left (λ w a, perform a w) actions w.

(** The constructor takes the bridge branch (lines 63-123). *)
Definition installs_bridge (env : environment) : bool :=
  match run_keys env, NODE_ENV env with
  | Throw err, Normal node_env =>
      String.eqb (error_toString err) "ReferenceError: google is not defined"
      && strict_eq_string node_env "development"
  | _, _ => false
  end.

(** The property name under which the handler looks up the table, for
    a message that passes both of its guards. *)
Definition accepted_key `{Engine} (config : option ServerConfig) (event : MessageEvent)
  : option string :=
  match checkAllowList (config_allowedDevelopmentDomains config) (origin event),
        get_prop (data event) "type",
        get_prop (data event) "id" with
  | true, Normal type, Normal id =>
      if strict_eq_string type "RESPONSE" then
        match toPropertyKey id with
        | Normal key => Some key
        | Throw _ => None
        end
      else None
  | _, _, _ => None
  end.

(** One call after the other of the same function. *)
Fixpoint call_each (f : server_function) (argss : list (list value)) : M (list nat) :=
  match argss with
  | [] => mret []
  | args :: rest =>
      promise ← call_function f args;
      others ← call_each f rest;
      mret (promise :: others)
  end.

(** Every entry of the table holds the two resolving functions of one
    Promise that exists. *)
Definition entries_allocated (w : window) : Prop :=
  ∀ k e, gasStore w !! k = Some e →
    ∃ p, e = Entry (ResolveOf p) (RejectOf p) ∧ p < length (promises w).

(** Every key of the table is an identifier [uuidv4] has handed out. *)
Definition keys_drawn `{Engine} (w : window) : Prop :=
  ∀ k, is_Some (gasStore w !! k) → ∃ n, n < draws w ∧ k = uuidv4 n.

(** No entry under a key other than [id] holds a resolving function of
    the Promise [p]. *)
Definition only_under (id : string) (p : nat) (w : window) : Prop :=
  ∀ k e, gasStore w !! k = Some e → k ≠ id →
    ∃ q, e = Entry (ResolveOf q) (RejectOf q) ∧ q ≠ p.

(** The Promise [p] is pending and reachable only through the entry
    under [id]. *)
Definition awaiting (id : string) (p : nat) (w : window) : Prop :=
  promises w !! p = Some Pending ∧ only_under id p w.

(** ** Sample data for the worked examples *)

(** [ToString] on the values the examples use. *)
Fixpoint sample_toString (v : value) : string :=
  match v with
  | VUndefined => "undefined"
  | VNull => "null"
  | VBool true => "true"
  | VBool false => "false"
  | VNum n => pretty n
  | VStr s => s
  | VArr items =>
      join ","
        (map (λ item, match item with
                      | VUndefined | VNull => ""
                      | _ => sample_toString item
                      end) items)
  | VObj _ => "[object Object]"
  end.

Program Definition sample_engine : Engine := {|
  uuidv4 := λ n, "uuid-" +:+ pretty n;
  toPropertyKey := λ v, Normal (sample_toString v);
|}.
Next Obligation. reflexivity. Qed.

(** A freshly loaded page served from [https://localhost:3000]. *)
Definition fresh_page : window :=
  Window ∅ [] [] [] [] 0 "https://localhost:3000" [].

(** The host global is missing and the build is a development one. *)
Definition dev_environment : environment :=
  {| run_keys := Throw google_is_not_defined;
     NODE_ENV := Normal (VStr "development") |}.

Definition localhost_config : option ServerConfig :=
  Some {| allowedDevelopmentDomains :=
            AllowValue (VStr "https://localhost:3000 http://localhost:3000") |}.

(** The host global is missing in a production build. *)
Definition production_environment_without_host : environment :=
  {| run_keys := Throw google_is_not_defined;
     NODE_ENV := Normal (VStr "production") |}.

(** The host global exists but has no [script] member yet. *)
Definition broken_host_error : js_error :=
  TypeError "Cannot read properties of undefined (reading 'run')".

Definition broken_host_environment : environment :=
  {| run_keys := Throw broken_host_error;
     NODE_ENV := Normal (VStr "development") |}.

(** A host exposing two server functions next to its four modifiers. *)
Definition host_environment : environment :=
  {| run_keys := Normal ["withFailureHandler"; "withLogger"; "withSuccessHandler";
                         "withUserObject"; "getSheetsData"; "addSheet"];
     NODE_ENV := Normal (VStr "production") |}.

(** The page after [new Server(localhost_config)] in development. *)
Definition bridge_page : window :=
  @perform sample_engine (Construct dev_environment localhost_config) fresh_page.

(** The [Server] object that construction returned. *)
Definition bridge_server : Server :=
  {| _config := localhost_config; _serverFunctions := BridgeProxy |}.

(** The page after [serverFunctions.myFunc(1, 2)] on [bridge_page]. *)
Definition pending_page : window :=
  @run sample_engine
    [Get "myFunc"; Call (BridgeFunction "uuid-0" "myFunc" 0) [VNum 1; VNum 2]]
    bridge_page.

Definition response_event (id : string) (status : string) (response : value)
  : MessageEvent :=
  {| origin := "https://localhost:3000";
     data := VObj [("type", VStr "RESPONSE"); ("id", VStr id);
                   ("status", VStr status); ("response", response)] |}.

(** A message from a frame that is not on the allow-list. *)
Definition foreign_event : MessageEvent :=
  {| origin := "https://evil.example";
     data := VObj [("type", VStr "RESPONSE"); ("id", VStr "uuid-0");
                   ("status", VStr "OK"); ("response", VNum 42)] |}.

(** Further steps of the page while the call of [pending_page] is
    outstanding: another call is issued and answered, a foreign message
    arrives, a production server is constructed. *)
Definition sample_actions : list action :=
  [Get "other";
   Call (BridgeFunction "uuid-1" "other" 1) [];
   Receive localhost_config (response_event "uuid-1" "ERROR" (VStr "boom"));
   Receive localhost_config foreign_event;
   Construct host_environment None].

(** ** Further notions for the page over time *)

(** No two keys of the table hold the same entry. *)
Definition entries_distinct (w : window) : Prop :=
  ∀ k k' e, gasStore w !! k = Some e → gasStore w !! k' = Some e → k = k'.

(** The Promise [p] is pending and no entry of the table holds one of
    its resolving functions. *)
Definition orphaned (p : nat) (w : window) : Prop :=
  promises w !! p = Some Pending
  ∧ ∀ k e, gasStore w !! k = Some e →
      ∃ q, e = Entry (ResolveOf q) (RejectOf q) ∧ q ≠ p.

(** What a step hands to [window.parent.postMessage], on a page whose
    origin is [page_origin]. *)
Definition requests_sent (page_origin : string) (a : action) : list (request * string) :=
  match a with
  | Call (BridgeFunction id functionName _) args =>
      [(Request "REQUEST" id functionName args, page_origin)]
  | _ => []
  end.

(** The listener a step registers with [window.addEventListener]. *)
Definition listener_added (a : action) : list (option ServerConfig) :=
  match a with
  | Construct env config => if installs_bridge env then [config] else []
  | _ => []
  end.

(** The host calls made by calling the wrapper of [functionName] once
    per argument list, the first Promise being numbered [first]. *)
Definition host_calls_of (functionName : string) (first : nat)
    (argss : list (list value)) : list host_call :=
  imap (λ i args, HostCall functionName args
                    (ResolveOf (first + i)) (RejectOf (first + i))) argss.

(** A generator that hands out the same identifier every time. *)
Program Definition repeating_engine : Engine := {|
  uuidv4 := λ _, "same-id";
  toPropertyKey := λ v, Normal (sample_toString v);
|}.
Next Obligation. reflexivity. Qed.

(** A browser page without a bundler: [process] is not declared. *)
Definition process_is_not_defined : js_error :=
  JsError "ReferenceError" "process is not defined".

Definition unbundled_environment : environment :=
  {| run_keys := Throw google_is_not_defined;
     NODE_ENV := Throw process_is_not_defined |}.

(** A second server whose allow-list lets every origin in. *)
Definition permissive_config : option ServerConfig :=
  Some {| allowedDevelopmentDomains := AllowFunction (λ _, VBool true) |}.

(** The page of [pending_page] with a second call outstanding. *)
Definition two_calls_page : window :=
  @run sample_engine
    [Get "other"; Call (BridgeFunction "uuid-1" "other" 1) [VStr "x"]]
    pending_page.

(** The page of [pending_page] after a second [new Server()] in
    development, the call of [myFunc] still unanswered. *)
Definition reconstructed_page : window :=
  @perform sample_engine (Construct dev_environment localhost_config) pending_page.

(** The page of [pending_page] after the response for its call. *)
Definition settled_page : window :=
  @perform sample_engine
    (Receive localhost_config (response_event "uuid-0" "OK" (VNum 42)))
    pending_page.

(** A response for [uuid-0] sent from a foreign origin. *)
Definition foreign_response (status : string) (response : value) : MessageEvent :=
  {| origin := "https://evil.example";
     data := VObj [("type", VStr "RESPONSE"); ("id", VStr "uuid-0");
                   ("status", VStr status); ("response", response)] |}.

(** * Properties *)

(** ** Splitting on a separator *)

Lemma split_nonempty sep s : split sep s ≠ [].
Proof.
  destruct s as [|c rest]; simpl; [discriminate|].
  destruct (Ascii.eqb c sep); [discriminate|].
  destruct (split sep rest); discriminate.
Qed.



(** No piece contains the separator. *)
Lemma split_pieces_clean sep s :
  Forall (λ piece, contains sep piece = false) (split sep s).
Proof.
  induction s as [|c rest IH]; simpl.
  - by constructor.
  - destruct (Ascii.eqb c sep) eqn:Hc.
    + by constructor.
    + destruct (split sep rest) as [|piece pieces]; simpl.
      * constructor; [simpl; by rewrite Hc | constructor].
      * inversion IH; subst. constructor; [simpl; by rewrite Hc | done].
Qed.


Lemma split_clean sep piece :
  contains sep piece = false → split sep piece = [piece].
Proof.
  induction piece as [|c piece IH]; simpl; intros Hclean; [reflexivity|].
  apply orb_false_iff in Hclean as [Hc Hrest].
  by rewrite Hc, (IH Hrest).
Qed.


Lemma split_append sep s1 s2 :
  split sep (s1 +:+ String sep s2) = split sep s1 ++ split sep s2.
Proof.
  induction s1 as [|c s1 IH]; simpl.
  - by rewrite Ascii.eqb_refl.
  - destruct (Ascii.eqb c sep); [by rewrite IH|].
    rewrite IH. pose proof (split_nonempty sep s1) as Hnil.
    by destruct (split sep s1).
Qed.






(** ** The allow-list *)



Example checkAllowList_string_accepts :
  checkAllowList (AllowValue (VStr "https://a.com https://b.com")) "https://a.com"
  = true.
Proof. reflexivity. Qed.

Example checkAllowList_string_rejects :
  checkAllowList (AllowValue (VStr "https://a.com https://b.com")) "https://c.com"
  = false.
Proof. reflexivity. Qed.

Example checkAllowList_no_substring_match :
  checkAllowList (AllowValue (VStr "https://a.com")) "https://a.co" = false.
Proof. reflexivity. Qed.

Example checkAllowList_empty_piece :
  split " " "a  b" = ["a"; ""; "b"]
  ∧ checkAllowList (AllowValue (VStr "a  b")) "" = true.
Proof. split; reflexivity. Qed.

Example checkAllowList_truthy_is_not_true :
  checkAllowList (AllowFunction (λ _, VNum 1)) "https://a.com" = false.
Proof. reflexivity. Qed.

(** ** Values and promises *)

Lemma strict_eq_string_true v s : strict_eq_string v s = true ↔ v = VStr s.
Proof.
  destruct v; simpl; try (split; [discriminate | congruence]).
  rewrite String.eqb_eq. split; congruence.
Qed.

Lemma strict_eq_string_false v s : strict_eq_string v s = false ↔ v ≠ VStr s.
Proof.
  rewrite <- strict_eq_string_true. destruct (strict_eq_string v s); split; congruence.
Qed.

(** Only an object can carry a [type] equal to a string. *)
Lemma get_prop_string_object v k s :
  get_prop v k = Normal (VStr s) → ∃ fields, v = VObj fields.
Proof. destruct v; simpl; try discriminate. eauto. Qed.

(** Once a property of a value could be read, every property can. *)
Lemma get_prop_total v k k' x :
  get_prop v k = Normal x → ∃ y, get_prop v k' = Normal y.
Proof. destruct v; simpl; try discriminate; eauto. Qed.

Lemma settle_length p s ps : length (settle p s ps) = length ps.
Proof.
  unfold settle. destruct (ps !! p) as [[| |]|]; try done. apply length_insert.
Qed.

Lemma settle_pending p s ps :
  ps !! p = Some Pending → settle p s ps !! p = Some s.
Proof.
  intros Hp. unfold settle. rewrite Hp.
  apply list_lookup_insert_eq. by eapply lookup_lt_Some.
Qed.

Lemma settle_settled p s ps :
  ps !! p ≠ Some Pending → settle p s ps = ps.
Proof. intros Hp. unfold settle. by destruct (ps !! p) as [[| |]|]. Qed.

Lemma settle_other p q s ps : p ≠ q → settle p s ps !! q = ps !! q.
Proof.
  intros Hne. unfold settle. destruct (ps !! p) as [[| |]|]; try done.
  by apply list_lookup_insert_ne.
Qed.

Lemma callback_effect_length cb v ps : length (callback_effect cb v ps) = length ps.
Proof. destruct cb; apply settle_length. Qed.

Section Handler.
Context `{Engine}.

(** ** The message listener *)

Ltac step_handler :=
  unfold receiveMessageHandler, mbind, M_bind, mret, M_ret, lift, gets, throw.

(** The handler in closed form for a message that passes both guards. *)
Lemma receiveMessageHandler_accepted config event w response status id key :
  checkAllowList (config_allowedDevelopmentDomains config) (origin event) = true →
  get_prop (data event) "type" = Normal (VStr "RESPONSE") →
  get_prop (data event) "response" = Normal response →
  get_prop (data event) "status" = Normal status →
  get_prop (data event) "id" = Normal id →
  toPropertyKey id = Normal key →
  receiveMessageHandler config event w =
    match gasStore w !! key with
    | None => (Throw (TypeError "Cannot destructure property 'resolve' of 'window.gasStore[id]' as it is undefined."), w)
    | Some e =>
        if strict_eq_string status "ERROR"
        then call (resolve e) response (snd (call (reject e) response w))
        else call (resolve e) response w
    end.
Proof.
  intros Hallow Htype Hresponse Hstatus Hid Hkey. step_handler.
  rewrite Hallow, Htype, Hresponse, Hstatus, Hid, Hkey. simpl.
  destruct (gasStore w !! key) as [e|]; [|done].
  by destruct (strict_eq_string status "ERROR").
Qed.

(** Whatever the message, the handler leaves the table, the posted
    requests and the listeners alone, and creates no Promise. *)
Lemma receiveMessageHandler_frame config event w :
  let w' := snd (receiveMessageHandler config event w) in
  gasStore w' = gasStore w ∧ posted w' = posted w ∧ hostCalls w' = hostCalls w
  ∧ listeners w' = listeners w ∧ draws w' = draws w
  ∧ location_origin w' = location_origin w
  ∧ length (promises w') = length (promises w).
Proof.
  step_handler.
  destruct (checkAllowList _ _); simpl; [|done].
  destruct (get_prop (data event) "type") as [type|]; simpl; [|done].
  destruct (strict_eq_string type "RESPONSE"); simpl; [|done].
  destruct (get_prop (data event) "response") as [response|]; simpl; [|done].
  destruct (get_prop (data event) "status") as [status|]; simpl; [|done].
  destruct (get_prop (data event) "id") as [id|]; simpl; [|done].
  destruct (toPropertyKey id) as [key|]; simpl; [|done].
  destruct (gasStore w !! key) as [e|]; simpl; [|done].
  destruct (strict_eq_string status "ERROR"); simpl;
    rewrite ?callback_effect_length; done.
Qed.

(** The first guard: an origin that fails the allow-list. *)
Lemma receiveMessageHandler_origin_denied config event w :
  checkAllowList (config_allowedDevelopmentDomains config) (origin event) = false →
  receiveMessageHandler config event w = (Normal tt, w).
Proof. intros Hdeny. step_handler. by rewrite Hdeny. Qed.

(** The second guard: a [type] that is not the string RESPONSE. *)
Lemma receiveMessageHandler_other_type config event w type :
  get_prop (data event) "type" = Normal type → type ≠ VStr "RESPONSE" →
  receiveMessageHandler config event w = (Normal tt, w).
Proof.
  intros Htype Hne. step_handler.
  destruct (checkAllowList _ _); simpl; [|done].
  rewrite Htype. simpl.
  apply strict_eq_string_false in Hne. by rewrite Hne.
Qed.

(** Where the two guards do their work: a message whose origin fails
    the allow-list, or whose [type] can be read and is anything but the
    string RESPONSE, makes the handler return normally with the page
    exactly as it was: the table is not modified, no resolving function
    is called and every Promise keeps its state. *)
Theorem receiveMessageHandler_drops config event w :
  checkAllowList (config_allowedDevelopmentDomains config) (origin event) = false
  ∨ (∃ type, get_prop (data event) "type" = Normal type ∧ type ≠ VStr "RESPONSE") →
  receiveMessageHandler config event w = (Normal tt, w).
Proof.
  intros [Hdeny | (type & Htype & Hne)].
  - by apply receiveMessageHandler_origin_denied.
  - by eapply receiveMessageHandler_other_type.
Qed.

(** C6, as the code behaves.  A message from an allowed origin whose
    payload is [null] or [undefined] is not a RESPONSE, yet the handler
    does not return: the read of [type] in the second guard throws a
    [TypeError].  Nothing has been touched by then, so the table and
    every Promise are as they were. *)
Theorem receiveMessageHandler_nullish config event w :
  checkAllowList (config_allowedDevelopmentDomains config) (origin event) = true →
  data event = VNull ∨ data event = VUndefined →
  ∃ message, receiveMessageHandler config event w = (Throw (TypeError message), w).
Proof.
  intros Hallow Hdata. step_handler. rewrite Hallow. simpl.
  destruct Hdata as [-> | ->]; simpl; eauto.
Qed.

(** C1, as the code behaves.  An accepted response whose [id] names
    no entry of the table makes the handler throw; it does so before
    any resolving function is called, so the page, and with it every
    pending Promise, is unchanged. *)
Theorem receiveMessageHandler_unknown_id config event w id :
  checkAllowList (config_allowedDevelopmentDomains config) (origin event) = true →
  get_prop (data event) "type" = Normal (VStr "RESPONSE") →
  get_prop (data event) "id" = Normal id →
  (∀ key, toPropertyKey id = Normal key → gasStore w !! key = None) →
  ∃ e, receiveMessageHandler config event w = (Throw e, w).
Proof.
  intros Hallow Htype Hid Hnone.
  destruct (get_prop_total _ _ "response" _ Htype) as [response Hresponse].
  destruct (get_prop_total _ _ "status" _ Htype) as [status Hstatus].
  destruct (toPropertyKey id) as [key|e] eqn:Hkey.
  - rewrite (receiveMessageHandler_accepted _ _ _ _ _ _ _
               Hallow Htype Hresponse Hstatus Hid Hkey).
    rewrite (Hnone key eq_refl). eauto.
  - step_handler.
    rewrite Hallow, Htype, Hresponse, Hstatus, Hid, Hkey. simpl. eauto.
Qed.

(** C5.  For an accepted response whose [id] names the entry [e]: with
    status ERROR the stored [reject] is called with the payload and
    then the stored [resolve] is called with the same payload; with
    any other status [resolve] alone is called.  The handler returns
    normally either way. *)
Theorem receiveMessageHandler_calls config event w response status id key e :
  checkAllowList (config_allowedDevelopmentDomains config) (origin event) = true →
  get_prop (data event) "type" = Normal (VStr "RESPONSE") →
  get_prop (data event) "response" = Normal response →
  get_prop (data event) "status" = Normal status →
  get_prop (data event) "id" = Normal id →
  toPropertyKey id = Normal key →
  gasStore w !! key = Some e →
  let (outcome, w') := receiveMessageHandler config event w in
  outcome = Normal tt
  ∧ (status = VStr "ERROR" →
     invocations w' = invocations w ++ [(reject e, response); (resolve e, response)])
  ∧ (status ≠ VStr "ERROR" →
     invocations w' = invocations w ++ [(resolve e, response)]).
Proof.
  intros Hallow Htype Hresponse Hstatus Hid Hkey He.
  rewrite (receiveMessageHandler_accepted _ _ _ _ _ _ _
             Hallow Htype Hresponse Hstatus Hid Hkey), He.
  destruct (strict_eq_string status "ERROR") eqn:Hs; simpl.
  - apply strict_eq_string_true in Hs. repeat split; [|done].
    intros _. by rewrite <- app_assoc.
  - apply strict_eq_string_false in Hs. repeat split; done.
Qed.

(** C4.  When the table holds under [id] the resolving functions of a
    pending Promise, an allowed-origin response for [id] with status OK
    leaves that Promise fulfilled with the payload, and one with status
    ERROR leaves it rejected with the payload. *)
Theorem receiveMessageHandler_settles config event w response id p :
  checkAllowList (config_allowedDevelopmentDomains config) (origin event) = true →
  get_prop (data event) "type" = Normal (VStr "RESPONSE") →
  get_prop (data event) "response" = Normal response →
  get_prop (data event) "id" = Normal (VStr id) →
  gasStore w !! id = Some (Entry (ResolveOf p) (RejectOf p)) →
  promises w !! p = Some Pending →
  let (outcome, w') := receiveMessageHandler config event w in
  outcome = Normal tt
  ∧ (get_prop (data event) "status" = Normal (VStr "OK") →
     promises w' !! p = Some (Fulfilled response))
  ∧ (get_prop (data event) "status" = Normal (VStr "ERROR") →
     promises w' !! p = Some (Rejected response)).
Proof.
  intros Hallow Htype Hresponse Hid He Hp.
  destruct (get_prop_total _ _ "status" _ Htype) as [status Hstatus].
  rewrite (receiveMessageHandler_accepted _ _ _ _ _ _ _
             Hallow Htype Hresponse Hstatus Hid (toPropertyKey_string id)), He.
  destruct (strict_eq_string status "ERROR") eqn:Hs; simpl.
  - apply strict_eq_string_true in Hs. subst status.
    repeat split; [intros Hok; rewrite Hstatus in Hok; discriminate |].
    intros _. rewrite settle_settled.
    + by apply settle_pending.
    + rewrite settle_pending by done. discriminate.
  - apply strict_eq_string_false in Hs.
    repeat split; [| intros Herr; rewrite Hstatus in Herr; congruence].
    intros _. by apply settle_pending.
Qed.
End Handler.

Section Bridge.
Context `{Engine}.

(** ** The proxy and the functions it hands out *)

(** The [get] trap in closed form. *)
Lemma handler_get_eq functionName w :
  handler_get functionName w =
    (Normal (BridgeFunction (uuidv4 (draws w)) functionName (length (promises w))),
     set_gasStore <[uuidv4 (draws w) :=
                      Entry (ResolveOf (length (promises w)))
                            (RejectOf (length (promises w)))]>
       (set_promises (λ ps, ps ++ [Pending]) (set_draws S w))).
Proof. reflexivity. Qed.

(** Calling the closure posts one request and returns the captured Promise. *)
Lemma call_function_bridge id functionName promise args w :
  call_function (BridgeFunction id functionName promise) args w =
    (Normal promise,
     set_posted (λ l, l ++ [(Request "REQUEST" id functionName args,
                             location_origin w)]) w).
Proof. reflexivity. Qed.

(** Calling a production wrapper creates a Promise and hands the call,
    with that Promise's two resolving functions, to the host. *)
Lemma call_function_host functionName args w :
  call_function (HostFunction functionName) args w =
    (Normal (length (promises w)),
     set_hostCalls (λ l, l ++ [HostCall functionName args
                                 (ResolveOf (length (promises w)))
                                 (RejectOf (length (promises w)))])
       (set_promises (λ ps, ps ++ [Pending]) w)).
Proof. reflexivity. Qed.

Lemma call_each_bridge id functionName promise argss w :
  ∃ w', call_each (BridgeFunction id functionName promise) argss w
        = (Normal (replicate (length argss) promise), w')
    ∧ posted w' = posted w ++
        map (λ args, (Request "REQUEST" id functionName args, location_origin w)) argss
    ∧ gasStore w' = gasStore w ∧ promises w' = promises w
    ∧ draws w' = draws w ∧ location_origin w' = location_origin w.
Proof.
  revert w. induction argss as [|args rest IH]; intros w.
  - exists w. simpl. by rewrite app_nil_r.
  - cbn [call_each]. unfold mbind, M_bind at 1.
    rewrite call_function_bridge.
    destruct (IH (set_posted (λ l, l ++ [(Request "REQUEST" id functionName args,
                                          location_origin w)]) w))
      as (w' & Hcall & Hposted & Hstore & Hpromises & Hdraws & Horigin).
    exists w'. unfold mbind, M_bind at 1. rewrite Hcall. simpl.
    repeat split; try done.
    rewrite Hposted. simpl. by rewrite <- app_assoc.
Qed.

(** C10.  Reading a property of the proxy draws one identifier, creates
    one pending Promise and stores its two resolving functions under
    that identifier, all before any call and without posting anything.
    Calling the returned function any number of times then posts one
    request per call, each carrying that same identifier, returns the
    same Promise every time and adds nothing to the table.  When
    [uuidv4] never repeats itself and the keys of the table all come
    from it, the identifier is new to the table. *)
Theorem handler_get_registers functionName w :
  let id := uuidv4 (draws w) in
  let p := length (promises w) in
  ∃ w1,
    handler_get functionName w = (Normal (BridgeFunction id functionName p), w1)
    ∧ draws w1 = S (draws w)
    ∧ gasStore w1 = <[id := Entry (ResolveOf p) (RejectOf p)]> (gasStore w)
    ∧ promises w1 = promises w ++ [Pending]
    ∧ posted w1 = posted w
    ∧ (∀ argss, ∃ w2,
         call_each (BridgeFunction id functionName p) argss w1
         = (Normal (replicate (length argss) p), w2)
         ∧ posted w2 = posted w ++
             map (λ args, (Request "REQUEST" id functionName args,
                           location_origin w)) argss
         ∧ gasStore w2 = gasStore w1
         ∧ promises w2 = promises w1
         ∧ draws w2 = draws w1)
    ∧ ((∀ m n, uuidv4 m = uuidv4 n → m = n) → keys_drawn w →
       gasStore w !! id = None).
Proof.
  intros id p. eexists. split; [apply handler_get_eq|].
  repeat split; try done.
  - intros argss.
    destruct (call_each_bridge id functionName p argss
                (set_gasStore <[id := Entry (ResolveOf p) (RejectOf p)]>
                   (set_promises (λ ps, ps ++ [Pending]) (set_draws S w))))
      as (w2 & Hcall & Hposted & Hstore & Hpromises & Hdraws & _).
    exists w2. repeat split; done.
  - intros Hinj Hkeys.
    destruct (gasStore w !! id) as [e|] eqn:Hid; [|done].
    destruct (Hkeys id) as (n & Hn & Heq); [by rewrite Hid|].
    apply Hinj in Heq. lia.
Qed.
End Bridge.

(** ** The constructor *)

Lemma includes_elem_of names name : includes names name = bool_decide (name ∈ names).
Proof.
  unfold includes. induction names as [|n names IH]; [done|].
  cbn [existsb]. rewrite IH.
  destruct (String.eqb_spec name n) as [->|Hne]; cbn [orb].
  - rewrite bool_decide_eq_true_2; [done | by left].
  - apply bool_decide_ext. rewrite elem_of_cons.
    split; [by right | by intros [?|?]; [congruence|]].
Qed.

Lemma reducer_lookup acc functionName name :
  reducer acc functionName !! name =
    if bool_decide (name = functionName ∧ name ∉ ignoredFunctionNames)
    then Some (HostFunction name) else acc !! name.
Proof.
  unfold reducer. rewrite includes_elem_of.
  case_bool_decide as Hin; case_bool_decide as Hname.
  - by destruct Hname as [-> ?].
  - done.
  - destruct Hname as [-> _]. by rewrite lookup_insert_eq.
  - rewrite lookup_insert_ne; [done|]. intros <-. by apply Hname.
Qed.

(** What [reduce] leaves under each name. *)
Lemma fold_reducer_lookup keys acc name :
  fold_left reducer keys acc !! name =
    if bool_decide (name ∈ keys ∧ name ∉ ignoredFunctionNames)
    then Some (HostFunction name) else acc !! name.
Proof.
  revert acc. induction keys as [|k keys IH]; intros acc.
  - cbn [fold_left]. rewrite bool_decide_eq_false_2; [done|].
    by intros [?%elem_of_nil _].
  - cbn [fold_left]. rewrite IH, reducer_lookup.
    repeat case_bool_decide; try done; exfalso; set_solver.
Qed.

Lemma production_functions_lookup keys name :
  production_functions keys !! name =
    if bool_decide (name ∈ keys ∧ name ∉ ignoredFunctionNames)
    then Some (HostFunction name) else None.
Proof. unfold production_functions. by rewrite fold_reducer_lookup, lookup_empty. Qed.

(** C8.  When the host object can be enumerated, construction succeeds
    without touching the page and [serverFunctions] is a plain mapping
    in which every enumerated name that is not reserved maps to the
    Promise-returning wrapper of that very name, while none of the four
    reserved names is a key; the mapping has no other keys, and calling
    a wrapper returns a new pending Promise. *)
Theorem production_serverFunctions env config w keys :
  run_keys env = Normal keys →
  ∃ functions,
    Server_constructor env config w
    = (Normal {| _config := config; _serverFunctions := PlainObject functions |}, w)
    ∧ (∀ name, name ∈ keys →
         (is_Some (functions !! name) ↔ name ∉ ignoredFunctionNames)
         ∧ (name ∉ ignoredFunctionNames → functions !! name = Some (HostFunction name)))
    ∧ (∀ name, name ∈ ignoredFunctionNames → functions !! name = None)
    ∧ (∀ name, is_Some (functions !! name) → name ∈ keys)
    ∧ (∀ name f args w', functions !! name = Some f →
         ∃ p w'', call_function f args w' = (Normal p, w'')
                  ∧ promises w' !! p = None
                  ∧ promises w'' !! p = Some Pending).
Proof.
  intros Hkeys. exists (production_functions keys).
  split; [unfold Server_constructor; by rewrite Hkeys|].
  repeat split.
  - rewrite production_functions_lookup. case_bool_decide as Hd.
    + by intros _; destruct Hd.
    + by intros [? [=]].
  - intros Hok. rewrite production_functions_lookup.
    by rewrite bool_decide_eq_true_2.
  - intros Hok. rewrite production_functions_lookup.
    by rewrite bool_decide_eq_true_2.
  - intros name Hreserved. rewrite production_functions_lookup.
    rewrite bool_decide_eq_false_2; [done|]. by intros [_ ?].
  - intros name. rewrite production_functions_lookup.
    case_bool_decide as Hd; [by destruct Hd | by intros [? [=]]].
  - intros name f args w'. rewrite production_functions_lookup.
    case_bool_decide; [|done]. intros [= <-].
    rewrite call_function_host. do 2 eexists. split; [done|]. split.
    + by apply lookup_ge_None.
    + simpl. by apply list_lookup_middle.
Qed.

(** The bridge branch: the table is replaced by an empty one, a
    listener is added and [serverFunctions] becomes the proxy. *)
Lemma Server_constructor_bridge env config w :
  installs_bridge env = true →
  Server_constructor env config w
  = (Normal {| _config := config; _serverFunctions := BridgeProxy |},
     set_listeners (λ l, l ++ [config]) (set_gasStore (λ _, ∅) w)).
Proof.
  unfold installs_bridge, Server_constructor.
  destruct (run_keys env) as [keys|err]; [done|].
  destruct (NODE_ENV env) as [node_env|e]; [|done].
  intros [Herr Hdev]%andb_true_iff. by rewrite Herr; unfold mbind, M_bind, lift; rewrite Hdev.
Qed.

(** Outside the bridge branch the constructor leaves the page alone. *)
Lemma Server_constructor_frame env config w :
  installs_bridge env = false → snd (Server_constructor env config w) = w.
Proof.
  unfold installs_bridge, Server_constructor.
  destruct (run_keys env) as [keys|err]; [done|].
  destruct (String.eqb (error_toString err) _); [|done].
  unfold mbind, M_bind, lift.
  destruct (NODE_ENV env) as [node_env|e]; [|done].
  simpl. by intros ->.
Qed.

(** C2, as the code has it.  When enumerating the host's functions
    throws an error whose string form is not that of the missing-host
    reference error, or throws that error while [NODE_ENV] evaluates to
    something other than the string development, the constructor
    catches the error and drops it: construction completes normally,
    [serverFunctions] is the empty mapping, and the page is untouched
    (no table, no listener). *)
Theorem Server_constructor_swallows env config w err :
  run_keys env = Throw err →
  error_toString err ≠ "ReferenceError: google is not defined"
  ∨ (∃ node_env, NODE_ENV env = Normal node_env ∧ node_env ≠ VStr "development") →
  Server_constructor env config w
  = (Normal {| _config := config; _serverFunctions := PlainObject ∅ |}, w).
Proof.
  intros Hkeys Hcase. unfold Server_constructor. rewrite Hkeys.
  destruct (String.eqb_spec (error_toString err)
              "ReferenceError: google is not defined") as [Heq|Hne].
  - destruct Hcase as [Hne | (node_env & Henv & Hdev)]; [done|].
    unfold mbind, M_bind, lift. rewrite Henv.
    apply strict_eq_string_false in Hdev. by rewrite Hdev.
  - done.
Qed.

Section Page.
Context `{Engine}.

(** ** Steps of the page and what they preserve *)

(** The three ways a handler run can end: the message is dropped, the
    handler throws before touching anything, or the entry found under
    the message's key has its functions called. *)
Lemma receiveMessageHandler_cases config event w :
  receiveMessageHandler config event w = (Normal tt, w)
  ∨ (∃ err, receiveMessageHandler config event w = (Throw err, w))
  ∨ (∃ key e response status,
       accepted_key config event = Some key
       ∧ gasStore w !! key = Some e
       ∧ receiveMessageHandler config event w =
           if strict_eq_string status "ERROR"
           then call (resolve e) response (snd (call (reject e) response w))
           else call (resolve e) response w).
Proof.
  unfold accepted_key.
  destruct (checkAllowList (config_allowedDevelopmentDomains config) (origin event))
    eqn:Hallow.
  2: { left. by apply receiveMessageHandler_origin_denied. }
  destruct (get_prop (data event) "type") as [type|err] eqn:Htype.
  2: { right; left. exists err.
       unfold receiveMessageHandler, mbind, M_bind, lift.
       by rewrite Hallow, Htype. }
  destruct (strict_eq_string type "RESPONSE") eqn:Hresponse.
  2: { left. apply (receiveMessageHandler_other_type _ _ _ type); [done|].
       by apply strict_eq_string_false. }
  apply strict_eq_string_true in Hresponse. subst type.
  destruct (get_prop_total _ _ "response" _ Htype) as [response Hresp].
  destruct (get_prop_total _ _ "status" _ Htype) as [status Hstatus].
  destruct (get_prop_total _ _ "id" _ Htype) as [id Hid]. rewrite Hid.
  destruct (toPropertyKey id) as [key|err] eqn:Hkey.
  - rewrite (receiveMessageHandler_accepted _ _ _ _ _ _ _
               Hallow Htype Hresp Hstatus Hid Hkey).
    destruct (gasStore w !! key) as [e|] eqn:He.
    + right; right. by exists key, e, response, status.
    + right; left. eauto.
  - right; left. exists err.
    unfold receiveMessageHandler, mbind, M_bind, lift.
    by rewrite Hallow, Htype, Hresp, Hstatus, Hid; simpl; rewrite Hkey.
Qed.

(** How one step changes the table: not at all, by one assignment
    under a newly drawn identifier, or by a reset. *)
Lemma perform_gasStore a w :
  gasStore (perform a w) = gasStore w
  ∨ (∃ functionName, a = Get functionName
       ∧ gasStore (perform a w)
         = <[uuidv4 (draws w) := Entry (ResolveOf (length (promises w)))
                                        (RejectOf (length (promises w)))]>
             (gasStore w))
  ∨ (∃ env config, a = Construct env config ∧ installs_bridge env = true
       ∧ gasStore (perform a w) = ∅).
Proof.
  destruct a as [env config | functionName | f args | config event]; simpl.
  - destruct (installs_bridge env) eqn:Hb.
    + right; right. exists env, config.
      by rewrite (Server_constructor_bridge _ _ _ Hb).
    + left. by rewrite (Server_constructor_frame _ _ _ Hb).
  - right; left. by exists functionName.
  - left. by destruct f.
  - left. apply (receiveMessageHandler_frame config event w).
Qed.

Lemma perform_promises_length a w :
  (length (promises w) ≤ length (promises (perform a w)))%nat.
Proof.
  destruct a as [env config | functionName | f args | config event]; simpl.
  - destruct (installs_bridge env) eqn:Hb.
    + by rewrite (Server_constructor_bridge _ _ _ Hb).
    + by rewrite (Server_constructor_frame _ _ _ Hb).
  - rewrite length_app. lia.
  - destruct f; simpl; [rewrite length_app|]; lia.
  - by destruct (receiveMessageHandler_frame config event w)
      as (_ & _ & _ & _ & _ & _ & ->).
Qed.

Lemma perform_draws a w : (draws w ≤ draws (perform a w))%nat.
Proof.
  destruct a as [env config | functionName | f args | config event]; simpl.
  - destruct (installs_bridge env) eqn:Hb.
    + by rewrite (Server_constructor_bridge _ _ _ Hb).
    + by rewrite (Server_constructor_frame _ _ _ Hb).
  - lia.
  - by destruct f.
  - by destruct (receiveMessageHandler_frame config event w)
      as (_ & _ & _ & _ & -> & _).
Qed.

Lemma perform_Get_draws functionName w :
  draws (perform (Get functionName) w) = S (draws w).
Proof. reflexivity. Qed.

(** Both table invariants survive every step. *)
Lemma perform_entries_allocated a w :
  entries_allocated w → entries_allocated (perform a w).
Proof.
  intros Hw k e. pose proof (perform_promises_length a w) as Hlen.
  destruct (perform_gasStore a w)
    as [-> | [(functionName & -> & ->) | (env & config & -> & _ & ->)]].
  - intros (p & -> & Hp)%Hw. exists p. split; [done | lia].
  - destruct (decide (uuidv4 (draws w) = k)) as [<-|Hne].
    + rewrite lookup_insert_eq. intros [= <-]. eexists. split; [done|].
      simpl. rewrite length_app. simpl. lia.
    + rewrite lookup_insert_ne by done.
      intros (p & -> & Hp)%Hw. exists p. split; [done | lia].
  - by rewrite lookup_empty.
Qed.

Lemma perform_keys_drawn a w : keys_drawn w → keys_drawn (perform a w).
Proof.
  intros Hw k. pose proof (perform_draws a w) as Hdraws.
  destruct (perform_gasStore a w)
    as [Hsame | [(functionName & -> & Hstore) | (env & config & -> & _ & Hstore)]].
  - rewrite Hsame. intros (n & Hn & ->)%Hw. exists n. split; [lia | done].
  - rewrite Hstore, perform_Get_draws.
    destruct (decide (uuidv4 (draws w) = k)) as [<-|Hne].
    + intros _. exists (draws w). split; [lia | done].
    + rewrite lookup_insert_ne by done.
      intros (n & Hn & ->)%Hw. exists n. split; [lia | done].
  - rewrite Hstore, lookup_empty. by intros [? [=]].
Qed.

Lemma run_app actions actions' w :
  run (actions ++ actions') w = run actions' (run actions w).
Proof. apply fold_left_app. Qed.

Lemma run_invariants actions w :
  entries_allocated w ∧ keys_drawn w →
  entries_allocated (run actions w) ∧ keys_drawn (run actions w).
Proof.
  revert w. induction actions as [|a actions IH]; intros w [Hentries Hkeys]; [done|].
  apply IH. split; [by apply perform_entries_allocated | by apply perform_keys_drawn].
Qed.

(** A page on which nothing has run yet satisfies both. *)
Lemma fresh_invariants w :
  gasStore w = ∅ → entries_allocated w ∧ keys_drawn w.
Proof.
  intros Hempty. split.
  - intros k e. by rewrite Hempty, lookup_empty.
  - intros k. rewrite Hempty, lookup_empty. by intros [? [=]].
Qed.
End Page.

Section Traces.
Context `{Engine}.

(** ** A pending call stays pending *)

Lemma callback_effect_other cb v ps p :
  cb ≠ ResolveOf p → cb ≠ RejectOf p →
  callback_effect cb v ps !! p = ps !! p.
Proof.
  intros Hres Hrej. destruct cb as [q|q]; simpl;
    apply settle_other; congruence.
Qed.

Lemma perform_awaiting id p a w :
  (∀ config event, a = Receive config event →
     accepted_key config event ≠ Some id) →
  awaiting id p w → awaiting id p (perform a w).
Proof.
  intros Hother [Hpending Honly].
  assert (p < length (promises w))%nat as Hlt by by eapply lookup_lt_Some.
  split.
  - destruct a as [env config | functionName | f args | config event]; simpl.
    + destruct (installs_bridge env) eqn:Hb.
      * by rewrite (Server_constructor_bridge _ _ _ Hb).
      * by rewrite (Server_constructor_frame _ _ _ Hb).
    + by rewrite lookup_app_l.
    + destruct f; simpl; [by rewrite lookup_app_l | done].
    + destruct (receiveMessageHandler_cases config event w)
        as [-> | [[err ->] | (key & e & response & status & Hkey & He & ->)]];
        [done | done |].
      assert (key ≠ id) as Hne
        by (intros ->; by apply (Hother config event)).
      destruct (Honly key e He Hne) as (q & -> & Hq).
      destruct (strict_eq_string status "ERROR"); simpl;
        rewrite ?settle_other by done; done.
  - intros k e. pose proof (perform_promises_length a w) as Hlen.
    destruct (perform_gasStore a w)
      as [-> | [(functionName & -> & ->) | (env & config & -> & _ & ->)]].
    + apply Honly.
    + destruct (decide (uuidv4 (draws w) = k)) as [<-|Hk].
      * rewrite lookup_insert_eq. intros [= <-] _.
        eexists. split; [done | lia].
      * rewrite lookup_insert_ne by done. apply Honly.
    + by rewrite lookup_empty.
Qed.

Lemma run_awaiting id p actions w :
  Forall (λ a, ∀ config event, a = Receive config event →
                 accepted_key config event ≠ Some id) actions →
  awaiting id p w → awaiting id p (run actions w).
Proof.
  revert w. induction actions as [|a actions IH]; intros w Hall Hw; [done|].
  inversion Hall as [|? ? Ha Hrest]; subst.
  apply IH; [done|]. by apply perform_awaiting.
Qed.

(** C7.  On a page whose table entries belong to existing Promises,
    reading [name] from a bridge proxy and calling the result with
    [args] posts exactly one message, of type REQUEST with the drawn
    identifier, the name and the arguments, targeted at the page's own
    origin, and returns a pending Promise registered under that
    identifier.  The Promise stays pending through any further steps
    of the page among which no listener accepts a response carrying
    that identifier. *)
Theorem bridge_call server name args w :
  _serverFunctions server = BridgeProxy →
  entries_allocated w →
  let id := uuidv4 (draws w) in
  let p := length (promises w) in
  ∃ f w1 w2,
    serverFunctions_get server name w = (Normal (Some f), w1)
    ∧ call_function f args w1 = (Normal p, w2)
    ∧ posted w2 = posted w ++ [(Request "REQUEST" id name args, location_origin w)]
    ∧ location_origin w2 = location_origin w
    ∧ promises w2 !! p = Some Pending
    ∧ gasStore w2 !! id = Some (Entry (ResolveOf p) (RejectOf p))
    ∧ (∀ actions,
         Forall (λ a, ∀ config event, a = Receive config event →
                        accepted_key config event ≠ Some id) actions →
         promises (run actions w2) !! p = Some Pending).
Proof.
  intros Hproxy Hentries id p. do 3 eexists.
  split; [unfold serverFunctions_get; rewrite Hproxy;
          unfold mbind, M_bind at 1; by rewrite handler_get_eq|].
  split; [apply call_function_bridge|].
  assert (awaiting (uuidv4 (draws w)) (length (promises w))
            (set_posted (λ l, l ++ [(Request "REQUEST" (uuidv4 (draws w)) name args,
                                     location_origin w)])
               (set_gasStore <[uuidv4 (draws w) :=
                                 Entry (ResolveOf (length (promises w)))
                                       (RejectOf (length (promises w)))]>
                  (set_promises (λ ps, ps ++ [Pending]) (set_draws S w)))))
    as Hawait.
  { split; simpl.
    - by apply list_lookup_middle.
    - intros k e Hk Hne. simpl in Hk. rewrite lookup_insert_ne in Hk by done.
      destruct (Hentries k e Hk) as (q & -> & Hq). exists q. split; [done | lia]. }
  repeat split; try done.
  - apply Hawait.
  - simpl. by rewrite lookup_insert_eq.
  - intros actions Hall. by apply (run_awaiting _ _ actions _ Hall Hawait).
Qed.

(** ** The table over time *)

(** C9, as the code has it.  A handler run never changes the table,
    so the entry of a settled call stays; along any steps of the page
    that contain no construction falling back to the bridge, every key
    of the table remains a key; and each construction that falls back
    to the bridge replaces the table by an empty one. *)
Theorem gasStore_keys_grow actions w :
  Forall (λ a, ∀ env config, a = Construct env config →
                 installs_bridge env = false) actions →
  dom (gasStore w) ⊆ dom (gasStore (run actions w))
  ∧ (∀ config event w', gasStore (perform (Receive config event) w') = gasStore w')
  ∧ (∀ env config w', installs_bridge env = true →
       gasStore (perform (Construct env config) w') = ∅).
Proof.
  intros Hall. repeat split.
  - revert w. induction Hall as [|a actions Ha _ IH]; intros w; [done|].
    etrans; [|apply IH].
    destruct (perform_gasStore a w)
      as [-> | [(functionName & -> & ->) | (env & config & -> & Hb & _)]].
    + done.
    + rewrite dom_insert. set_solver.
    + rewrite (Ha env config eq_refl) in Hb. discriminate.
  - intros config event w'. apply (receiveMessageHandler_frame config event w').
  - intros env config w' Hb. simpl.
    by rewrite (Server_constructor_bridge _ _ _ Hb).
Qed.
End Traces.

(** * Worked examples *)

(** ** A response nobody waits for *)

(** With the call under [uuid-0] outstanding, an allowed-origin response
    for an identifier that was never issued throws. *)
Lemma receiveMessageHandler_unknown_id_witness :
  gasStore pending_page !! "no-such-id" = None
  ∧ ∃ e, @receiveMessageHandler sample_engine localhost_config
           (response_event "no-such-id" "OK" (VNum 42)) pending_page
         = (Throw e, pending_page).
Proof.
  split; [reflexivity|].
  apply (@receiveMessageHandler_unknown_id sample_engine localhost_config
           (response_event "no-such-id" "OK" (VNum 42)) pending_page
           (VStr "no-such-id")).
  - reflexivity.
  - reflexivity.
  - reflexivity.
  - intros key [= <-]. reflexivity.
Defined.

(** The error is the [TypeError] of destructuring [undefined]. *)
Example unissued_id_TypeError :
  fst (@receiveMessageHandler sample_engine localhost_config
         (response_event "no-such-id" "OK" (VNum 42)) pending_page)
  = Throw (TypeError "Cannot destructure property 'resolve' of 'window.gasStore[id]' as it is undefined.").
Proof. reflexivity. Qed.

(** ** Construction *)

(** Unexpected errors do not leave the constructor: a [TypeError]
    thrown while reaching [google.script.run] is dropped, and so is the
    missing-host error in a production build.  Construction completes
    normally both times. *)
Lemma Server_constructor_does_not_rethrow :
  (run_keys broken_host_environment = Throw broken_host_error
   ∧ error_toString broken_host_error ≠ "ReferenceError: google is not defined"
   ∧ fst (Server_constructor broken_host_environment None fresh_page)
     ≠ Throw broken_host_error
   ∧ Server_constructor broken_host_environment None fresh_page
     = (Normal {| _config := None; _serverFunctions := PlainObject ∅ |}, fresh_page))
  ∧ (run_keys production_environment_without_host = Throw google_is_not_defined
     ∧ NODE_ENV production_environment_without_host = Normal (VStr "production")
     ∧ fst (Server_constructor production_environment_without_host None fresh_page)
       ≠ Throw google_is_not_defined
     ∧ Server_constructor production_environment_without_host None fresh_page
       = (Normal {| _config := None; _serverFunctions := PlainObject ∅ |}, fresh_page)).
Proof. repeat split; discriminate. Qed.

Lemma Server_constructor_swallows_witness :
  run_keys broken_host_environment = Throw broken_host_error
  ∧ Server_constructor broken_host_environment None fresh_page
    = (Normal {| _config := None; _serverFunctions := PlainObject ∅ |}, fresh_page).
Proof.
  split; [reflexivity|].
  apply (Server_constructor_swallows broken_host_environment None fresh_page
           broken_host_error).
  - reflexivity.
  - left. discriminate.
Defined.

Lemma production_serverFunctions_witness :
  ∃ functions,
    Server_constructor host_environment None fresh_page
    = (Normal {| _config := None; _serverFunctions := PlainObject functions |},
       fresh_page)
    ∧ functions !! "getSheetsData" = Some (HostFunction "getSheetsData")
    ∧ functions !! "withLogger" = None.
Proof.
  destruct (production_serverFunctions host_environment None fresh_page
              ["withFailureHandler"; "withLogger"; "withSuccessHandler";
               "withUserObject"; "getSheetsData"; "addSheet"] eq_refl)
    as (functions & Hctor & Hkeys & Hreserved & _).
  exists functions. split; [exact Hctor|]. split.
  - apply Hkeys.
    + apply (bool_decide_unpack _). vm_compute. exact I.
    + apply (proj1 (bool_decide_eq_false _)). vm_compute. reflexivity.
  - apply Hreserved. apply (bool_decide_unpack _). vm_compute. exact I.
Defined.

Example production_functions_sample :
  let functions :=
    production_functions ["withFailureHandler"; "withLogger"; "withSuccessHandler";
                          "withUserObject"; "getSheetsData"; "addSheet"] in
  size functions = 2
  ∧ functions !! "addSheet" = Some (HostFunction "addSheet")
  ∧ functions !! "withUserObject" = None.
Proof. repeat split. Qed.

(** ** A call and its response *)

Lemma bridge_page_invariants :
  entries_allocated bridge_page ∧ @keys_drawn sample_engine bridge_page.
Proof. by apply (@fresh_invariants sample_engine). Qed.

(** [serverFunctions.myFunc(1, 2)] on the page that has just installed
    the bridge. *)
Lemma bridge_call_witness :
  ∃ p w2,
    posted w2 = [(Request "REQUEST" "uuid-0" "myFunc" [VNum 1; VNum 2],
                  "https://localhost:3000")]
    ∧ promises w2 !! p = Some Pending
    ∧ promises (@run sample_engine sample_actions w2) !! p = Some Pending.
Proof.
  destruct (@bridge_call sample_engine bridge_server "myFunc" [VNum 1; VNum 2]
              bridge_page eq_refl (proj1 bridge_page_invariants))
    as (f & w1 & w2 & Hget & Hcall & Hposted & _ & Hpending & _ & Hlater).
  exists 0, w2. split; [rewrite Hposted; reflexivity|]. split; [exact Hpending|].
  apply Hlater. unfold sample_actions.
  repeat (apply Forall_cons_2;
          [intros config event Heq; try discriminate Heq;
           injection Heq as <- <-; vm_compute; discriminate|]).
  apply Forall_nil_2.
Defined.

(** The response for [uuid-0] fulfils the Promise of that call. *)
Lemma receiveMessageHandler_settles_witness :
  let (outcome, w') :=
    @receiveMessageHandler sample_engine localhost_config
      (response_event "uuid-0" "OK" (VNum 42)) pending_page in
  outcome = Normal tt
  ∧ (get_prop (data (response_event "uuid-0" "OK" (VNum 42))) "status"
     = Normal (VStr "OK") →
     promises w' !! 0 = Some (Fulfilled (VNum 42)))
  ∧ (get_prop (data (response_event "uuid-0" "OK" (VNum 42))) "status"
     = Normal (VStr "ERROR") →
     promises w' !! 0 = Some (Rejected (VNum 42))).
Proof.
  apply (@receiveMessageHandler_settles sample_engine localhost_config
           (response_event "uuid-0" "OK" (VNum 42)) pending_page (VNum 42) "uuid-0" 0);
    reflexivity.
Defined.

Example response_OK_fulfils :
  promises (@perform sample_engine
              (Receive localhost_config (response_event "uuid-0" "OK" (VNum 42)))
              pending_page)
  = [Fulfilled (VNum 42)].
Proof. reflexivity. Qed.

Example response_ERROR_rejects :
  promises (@perform sample_engine
              (Receive localhost_config (response_event "uuid-0" "ERROR" (VStr "boom")))
              pending_page)
  = [Rejected (VStr "boom")].
Proof. reflexivity. Qed.

(** An error response calls [reject] and then [resolve]. *)
Lemma receiveMessageHandler_calls_witness :
  let (outcome, w') :=
    @receiveMessageHandler sample_engine localhost_config
      (response_event "uuid-0" "ERROR" (VStr "boom")) pending_page in
  outcome = Normal tt
  ∧ (VStr "ERROR" = VStr "ERROR" →
     invocations w' = invocations pending_page ++
       [(reject (Entry (ResolveOf 0) (RejectOf 0)), VStr "boom");
        (resolve (Entry (ResolveOf 0) (RejectOf 0)), VStr "boom")])
  ∧ (VStr "ERROR" ≠ VStr "ERROR" →
     invocations w' = invocations pending_page ++
       [(resolve (Entry (ResolveOf 0) (RejectOf 0)), VStr "boom")]).
Proof.
  apply (@receiveMessageHandler_calls sample_engine localhost_config
           (response_event "uuid-0" "ERROR" (VStr "boom")) pending_page
           (VStr "boom") (VStr "ERROR") (VStr "uuid-0") "uuid-0"
           (Entry (ResolveOf 0) (RejectOf 0)));
    reflexivity.
Defined.

Example response_ERROR_invocations :
  invocations (@perform sample_engine
                 (Receive localhost_config (response_event "uuid-0" "ERROR" (VStr "boom")))
                 pending_page)
  = [(RejectOf 0, VStr "boom"); (ResolveOf 0, VStr "boom")].
Proof. reflexivity. Qed.

(** A response from a foreign origin, and a request echoed back from
    an allowed one, are both dropped. *)
Lemma receiveMessageHandler_drops_witness :
  @receiveMessageHandler sample_engine localhost_config foreign_event pending_page
  = (Normal tt, pending_page)
  ∧ @receiveMessageHandler sample_engine localhost_config
      {| origin := "https://localhost:3000";
         data := VObj [("type", VStr "REQUEST"); ("id", VStr "uuid-0")] |}
      pending_page
    = (Normal tt, pending_page).
Proof.
  split; apply (@receiveMessageHandler_drops sample_engine).
  - left. reflexivity.
  - right. exists (VStr "REQUEST"). split; [reflexivity | discriminate].
Defined.

(** ** The table over time *)

(** Entries can disappear: a second construction in development
    discards the entry of the outstanding call, so the keys of the table
    do not only grow. *)
Lemma second_construction_empties_gasStore :
  gasStore pending_page !! "uuid-0" = Some (Entry (ResolveOf 0) (RejectOf 0))
  ∧ gasStore (@perform sample_engine (Construct dev_environment localhost_config)
                pending_page) !! "uuid-0" = None
  ∧ ¬ dom (gasStore pending_page)
      ⊆ dom (gasStore (@perform sample_engine
                         (Construct dev_environment localhost_config) pending_page)).
Proof.
  split; [reflexivity|]. split; [reflexivity|].
  intros Hsub. specialize (Hsub "uuid-0").
  rewrite !elem_of_dom in Hsub.
  destruct Hsub as [e He]; [by eexists | discriminate He].
Qed.

Lemma gasStore_keys_grow_witness :
  dom (gasStore pending_page)
  ⊆ dom (gasStore (@run sample_engine sample_actions pending_page)).
Proof.
  apply (@gasStore_keys_grow sample_engine sample_actions pending_page).
  unfold sample_actions.
  repeat (apply Forall_cons_2;
          [intros env config Heq; try discriminate Heq;
           injection Heq as <- <-; reflexivity|]).
  apply Forall_nil_2.
Defined.

(** ** Reading a property twice, calling a function twice *)

(** The sample generator never repeats itself. *)
Lemma sample_uuidv4_inj m n :
  @uuidv4 sample_engine m = @uuidv4 sample_engine n → m = n.
Proof.
  simpl. intros Heq. injection Heq as Heq. by apply (inj pretty).
Qed.

Lemma pending_page_invariants :
  entries_allocated pending_page ∧ @keys_drawn sample_engine pending_page.
Proof. apply (@run_invariants sample_engine), bridge_page_invariants. Qed.

(** Reading [other] while the call of [myFunc] is outstanding. *)
Lemma handler_get_registers_witness :
  ∃ w1,
    @handler_get sample_engine "other" pending_page
    = (Normal (BridgeFunction "uuid-1" "other" 1), w1)
    ∧ gasStore w1
      = <["uuid-1" := Entry (ResolveOf 1) (RejectOf 1)]> (gasStore pending_page)
    ∧ posted w1 = posted pending_page
    ∧ gasStore pending_page !! "uuid-1" = None.
Proof.
  destruct (@handler_get_registers sample_engine "other" pending_page)
    as (w1 & Hget & _ & Hstore & _ & Hposted & _ & Hfresh).
  exists w1. split; [exact Hget|]. split; [exact Hstore|]. split; [exact Hposted|].
  exact (Hfresh sample_uuidv4_inj (proj2 pending_page_invariants)).
Defined.

Example call_twice_same_id_same_promise :
  let w1 := @perform sample_engine (Get "myFunc") bridge_page in
  let f := BridgeFunction "uuid-0" "myFunc" 0 in
  ∃ w2, call_each f [[VNum 1]; [VNum 2]] w1 = (Normal [0; 0], w2)
        ∧ map (λ m, req_id (fst m)) (posted w2) = ["uuid-0"; "uuid-0"]
        ∧ size (gasStore w2) = 1.
Proof. eexists. repeat split. Qed.

Example read_twice_two_entries :
  size (gasStore (@run sample_engine [Get "myFunc"; Get "myFunc"] bridge_page)) = 2.
Proof. reflexivity. Qed.

(** * Further properties of the code *)

(** ** The allow-list as a string *)

Lemma existsb_eqb_clean (origin : string) (pieces : list string) :
  contains " " origin = true →
  Forall (λ piece, contains " " piece = false) pieces →
  existsb (λ permittedOrigin, String.eqb permittedOrigin origin) pieces = false.
Proof.
  intros Hspace Hclean. induction Hclean as [|piece pieces Hpiece _ IH]; [done|].
  cbn [existsb]. rewrite IH, orb_false_r.
  apply String.eqb_neq. intros ->. congruence.
Qed.

(** X1.  Writing two allow-lists one after the other with a space in
    between allows exactly the origins that either of them allows. *)
Theorem checkAllowList_append (s1 s2 origin : string) :
  checkAllowList (AllowValue (VStr (s1 +:+ " " +:+ s2))) origin
  = checkAllowList (AllowValue (VStr s1)) origin
    || checkAllowList (AllowValue (VStr s2)) origin.
Proof.
  cbn [checkAllowList]. change (" " +:+ s2) with (String " " s2).
  by rewrite split_append, existsb_app.
Qed.

(** X2.  A string allow-list never admits an origin that contains a
    space, whatever the list says. *)
Theorem checkAllowList_origin_with_space (s origin : string) :
  contains " " origin = true →
  checkAllowList (AllowValue (VStr s)) origin = false.
Proof.
  intros Hspace. cbn [checkAllowList].
  apply existsb_eqb_clean; [done | apply split_pieces_clean].
Qed.

Lemma checkAllowList_origin_with_space_witness :
  checkAllowList (AllowValue (VStr "https://a.com https://b.com"))
    "https://a.com https://b.com" = false.
Proof. apply checkAllowList_origin_with_space. reflexivity. Defined.

(** X3.  An allow-list without a space names one origin, and admits
    that origin only: the comparison is on the whole string, so a
    prefix, a longer origin or a trailing slash does not match.  The
    empty list admits the empty origin alone. *)
Theorem checkAllowList_single (s origin : string) :
  contains " " s = false →
  (checkAllowList (AllowValue (VStr s)) origin = true ↔ origin = s).
Proof.
  intros Hclean. cbn [checkAllowList].
  rewrite (split_clean " " s Hclean). cbn [existsb]. rewrite orb_false_r.
  rewrite String.eqb_eq. split; congruence.
Qed.

Lemma checkAllowList_single_witness :
  (checkAllowList (AllowValue (VStr "https://localhost:3000")) "https://localhost:3000/"
   = true ↔ "https://localhost:3000/" = "https://localhost:3000")
  ∧ (checkAllowList (AllowValue (VStr "")) "" = true ↔ "" = "").
Proof. split; apply checkAllowList_single; reflexivity. Defined.

Example checkAllowList_trailing_slash :
  checkAllowList (AllowValue (VStr "https://localhost:3000")) "https://localhost:3000/"
  = false.
Proof. reflexivity. Qed.

Section Responses.
Context `{Engine}.

(** ** More on the message listener *)

(** The handler in closed form for a message with an accepted key. *)
Lemma receiveMessageHandler_by_key config event w key :
  accepted_key config event = Some key →
  checkAllowList (config_allowedDevelopmentDomains config) (origin event) = true
  ∧ get_prop (data event) "type" = Normal (VStr "RESPONSE")
  ∧ ∃ response status,
      get_prop (data event) "response" = Normal response
      ∧ get_prop (data event) "status" = Normal status
      ∧ receiveMessageHandler config event w =
          match gasStore w !! key with
          | None => (Throw (TypeError "Cannot destructure property 'resolve' of 'window.gasStore[id]' as it is undefined."), w)
          | Some e =>
              if strict_eq_string status "ERROR"
              then call (resolve e) response (snd (call (reject e) response w))
              else call (resolve e) response w
          end.
Proof.
  unfold accepted_key.
  destruct (checkAllowList _ _) eqn:Hallow; [|done].
  destruct (get_prop (data event) "type") as [type|] eqn:Htype; [|done].
  destruct (get_prop (data event) "id") as [id|] eqn:Hid; [|done].
  destruct (strict_eq_string type "RESPONSE") eqn:Hresp; [|done].
  destruct (toPropertyKey id) as [key'|] eqn:Hkey; [|done].
  intros [= <-]. apply strict_eq_string_true in Hresp. subst type.
  destruct (get_prop_total _ _ "response" _ Htype) as [response Hresponse].
  destruct (get_prop_total _ _ "status" _ Htype) as [status Hstatus].
  repeat split; try done. exists response, status. repeat split; try done.
  by apply receiveMessageHandler_accepted with (id := id).
Qed.

Lemma settle_keeps_settled p q s s' ps :
  ps !! p = Some s → s ≠ Pending → settle q s' ps !! p = Some s.
Proof.
  intros Hp Hs. destruct (decide (q = p)) as [->|Hne].
  - rewrite settle_settled; [done|]. rewrite Hp. congruence.
  - by rewrite settle_other.
Qed.

Lemma callback_effect_keeps_settled cb v p s ps :
  ps !! p = Some s → s ≠ Pending → callback_effect cb v ps !! p = Some s.
Proof. intros Hp Hs. destruct cb; by apply settle_keeps_settled. Qed.

(** X4.  Without a usable [allowedDevelopmentDomains] (no config, the
    field absent, or a value that is neither a string nor a function)
    the listener drops every message, whatever its origin and content:
    the page stays exactly as it was. *)
Theorem receiveMessageHandler_unconfigured config event w :
  typeof (config_allowedDevelopmentDomains config) ≠ "string" →
  typeof (config_allowedDevelopmentDomains config) ≠ "function" →
  receiveMessageHandler config event w = (Normal tt, w).
Proof.
  intros Hstring Hfunction. apply receiveMessageHandler_origin_denied.
  destruct (config_allowedDevelopmentDomains config) as [v|f]; [|done].
  destruct v; simpl in *; congruence.
Qed.

(** X5.  When the listener throws, once [checkAllowList] has given its
    answer.  If the answer is [false] the listener returns normally.  If
    it is [true] the listener throws exactly when either the payload has
    no properties to read ([null] or [undefined]), or the message is a
    RESPONSE whose [id] names no entry of the table; otherwise it
    returns normally. *)
Theorem receiveMessageHandler_throws_iff config event w :
  (checkAllowList (config_allowedDevelopmentDomains config) (origin event) = false →
   fst (receiveMessageHandler config event w) = Normal tt)
  ∧ (checkAllowList (config_allowedDevelopmentDomains config) (origin event) = true →
     ((∃ err, fst (receiveMessageHandler config event w) = Throw err)
      ↔ (∃ err, get_prop (data event) "type" = Throw err)
        ∨ (get_prop (data event) "type" = Normal (VStr "RESPONSE")
           ∧ ∃ id, get_prop (data event) "id" = Normal id
                   ∧ ∀ key, toPropertyKey id = Normal key → gasStore w !! key = None))
     ∧ ((∃ err, fst (receiveMessageHandler config event w) = Throw err)
        ∨ fst (receiveMessageHandler config event w) = Normal tt)).
Proof.
  split; [intros Hdeny; by rewrite receiveMessageHandler_origin_denied|].
  intros Hallow.
  destruct (get_prop (data event) "type") as [type|err] eqn:Htype.
  2: { assert (fst (receiveMessageHandler config event w) = Throw err) as Hthrow.
       { unfold receiveMessageHandler, mbind, M_bind, lift. by rewrite Hallow, Htype. }
       split; [|left; eauto]. split; [intros _; left; eauto | intros _; eauto]. }
  destruct (strict_eq_string type "RESPONSE") eqn:Hresp;
    [apply strict_eq_string_true in Hresp as ->
    |apply strict_eq_string_false in Hresp; rename Hresp into Hother].
  2: { rewrite (receiveMessageHandler_other_type _ _ _ type) by done.
       split; [|by right]. split; [by intros [? [=]]|].
       intros [[? [=]] | [[= ?] _]]. congruence. }
  destruct (get_prop_total _ _ "response" _ Htype) as [response Hresponse].
  destruct (get_prop_total _ _ "status" _ Htype) as [status Hstatus].
  destruct (get_prop_total _ _ "id" _ Htype) as [id Hid].
  destruct (toPropertyKey id) as [key|err] eqn:Hkey.
  - rewrite (receiveMessageHandler_accepted _ _ _ _ _ _ _
               Hallow Htype Hresponse Hstatus Hid Hkey).
    destruct (gasStore w !! key) as [e|] eqn:He.
    + split; [|right; by destruct (strict_eq_string status "ERROR")]. split.
      * destruct (strict_eq_string status "ERROR"); by intros [? [=]].
      * intros [[? [=]] | [_ (id' & Hid' & Hnone)]].
        rewrite Hid in Hid'. injection Hid' as <-.
        rewrite (Hnone key Hkey) in He. discriminate.
    + split; [|left; by eauto]. split; [|by eauto]. intros _. right. split; [done|].
      exists id. split; [done|]. intros key' Hkey'.
      rewrite Hkey in Hkey'. by injection Hkey' as <-.
  - assert (fst (receiveMessageHandler config event w) = Throw err) as Hthrow.
    { unfold receiveMessageHandler, mbind, M_bind, lift, gets.
      by rewrite Hallow, Htype, Hresponse, Hstatus, Hid; simpl; rewrite Hkey. }
    split; [|left; eauto]. split; [|intros _; eauto].
    intros _. right. split; [done|].
    exists id. split; [done|]. intros key' Hkey'. rewrite Hkey in Hkey'. discriminate.
Qed.

(** X6.  The first response wins.  Once the Promise registered under
    an identifier is settled, a further accepted response for that
    identifier, with whatever status and payload, returns normally and
    leaves the state of every Promise as it is. *)
Theorem receiveMessageHandler_after_settling config event w key p :
  accepted_key config event = Some key →
  gasStore w !! key = Some (Entry (ResolveOf p) (RejectOf p)) →
  promises w !! p ≠ Some Pending →
  fst (receiveMessageHandler config event w) = Normal tt
  ∧ promises (snd (receiveMessageHandler config event w)) = promises w.
Proof.
  intros Hkey He Hp.
  destruct (receiveMessageHandler_by_key config event w key Hkey)
    as (_ & _ & response & status & _ & _ & ->).
  rewrite He. destruct (strict_eq_string status "ERROR"); simpl.
  - split; [done|]. by rewrite !settle_settled by by rewrite ?settle_settled.
  - split; [done|]. by rewrite settle_settled.
Qed.

(** X7.  A response reaches only the call it names.  On a page whose
    entries belong to existing Promises and are pairwise distinct, an
    accepted response under one key leaves untouched the Promise
    registered under any other key. *)
Theorem receiveMessageHandler_other_call config event w key key' p' :
  entries_allocated w → entries_distinct w →
  accepted_key config event = Some key →
  gasStore w !! key' = Some (Entry (ResolveOf p') (RejectOf p')) →
  key ≠ key' →
  promises (snd (receiveMessageHandler config event w)) !! p' = promises w !! p'.
Proof.
  intros Hallocated Hdistinct Hkey He' Hne.
  destruct (receiveMessageHandler_by_key config event w key Hkey)
    as (_ & _ & response & status & _ & _ & ->).
  destruct (gasStore w !! key) as [e|] eqn:He; [|done].
  destruct (Hallocated key e He) as (p & -> & _).
  assert (p ≠ p') as Hp by (intros ->; by apply Hne, (Hdistinct key key' _ He He')).
  destruct (strict_eq_string status "ERROR"); simpl;
    by rewrite ?settle_other by done.
Qed.
End Responses.

Section Lifecycle.
Context `{Engine}.

(** ** A call from issue to settlement *)

(** X8.  The round trip.  Reading [name] from a bridge proxy, calling
    the result, and then handing a listener whose config allows the
    origin a RESPONSE that carries the identifier of the posted request
    settles the returned Promise with the payload: rejected when the
    status is the string ERROR, fulfilled for every other status, a
    missing one included.  No assumption on the page is needed. *)
Theorem bridge_round_trip server name args config event status response w :
  _serverFunctions server = BridgeProxy →
  checkAllowList (config_allowedDevelopmentDomains config) (origin event) = true →
  get_prop (data event) "type" = Normal (VStr "RESPONSE") →
  get_prop (data event) "id" = Normal (VStr (uuidv4 (draws w))) →
  get_prop (data event) "status" = Normal status →
  get_prop (data event) "response" = Normal response →
  ∃ f w1 w2 w3 promise,
    serverFunctions_get server name w = (Normal (Some f), w1)
    ∧ call_function f args w1 = (Normal promise, w2)
    ∧ (∃ posted_before message,
         posted w2 = posted_before ++ [message]
         ∧ req_id (fst message) = uuidv4 (draws w))
    ∧ receiveMessageHandler config event w2 = (Normal tt, w3)
    ∧ (status = VStr "ERROR" → promises w3 !! promise = Some (Rejected response))
    ∧ (status ≠ VStr "ERROR" → promises w3 !! promise = Some (Fulfilled response)).
Proof.
  intros Hproxy Hallow Htype Hid Hstatus Hresponse.
  assert ((promises w ++ [Pending]) !! length (promises w) = Some Pending)
    as Hpending by by apply list_lookup_middle.
  destruct (strict_eq_string status "ERROR") eqn:Hs;
    do 4 eexists; exists (length (promises w));
    (split; [unfold serverFunctions_get; rewrite Hproxy;
             unfold mbind, M_bind at 1; by rewrite handler_get_eq|]);
    (split; [apply call_function_bridge|]);
    (split; [by do 2 eexists|]);
    rewrite (receiveMessageHandler_accepted _ _ _ _ _ _ _
               Hallow Htype Hresponse Hstatus Hid (toPropertyKey_string _));
    cbn [gasStore set_posted set_gasStore]; rewrite lookup_insert_eq, Hs.
  - apply strict_eq_string_true in Hs. split; [reflexivity|].
    split; [|done]. intros _. simpl.
    rewrite settle_settled; [by apply settle_pending|].
    rewrite settle_pending by done. discriminate.
  - apply strict_eq_string_false in Hs. split; [reflexivity|].
    split; [done|]. intros _. simpl. by apply settle_pending.
Qed.

(** ** What the steps of a page keep *)

Lemma perform_Receive_promises config event w p s :
  promises w !! p = Some s → s ≠ Pending →
  promises (perform (Receive config event) w) !! p = Some s.
Proof.
  intros Hp Hs. simpl.
  destruct (receiveMessageHandler_cases config event w)
    as [-> | [[err ->] | (key & e & response & status & _ & _ & ->)]]; [done..|].
  destruct (strict_eq_string status "ERROR"); simpl;
    by repeat apply callback_effect_keeps_settled.
Qed.

Lemma perform_keeps_settled a w p s :
  promises w !! p = Some s → s ≠ Pending →
  promises (perform a w) !! p = Some s.
Proof.
  intros Hp Hs.
  assert (p < length (promises w))%nat as Hlt by by eapply lookup_lt_Some.
  destruct a as [env config | functionName | f args | config event].
  - simpl. destruct (installs_bridge env) eqn:Hb.
    + by rewrite (Server_constructor_bridge _ _ _ Hb).
    + by rewrite (Server_constructor_frame _ _ _ Hb).
  - simpl. by rewrite lookup_app_l.
  - destruct f; simpl; [by rewrite lookup_app_l | done].
  - by apply perform_Receive_promises.
Qed.

(** X9.  A Promise settles once.  Whatever steps the page takes
    (constructions, property reads, calls, messages), a Promise that is
    fulfilled or rejected keeps that state and that value. *)
Theorem run_keeps_settled actions w p s :
  promises w !! p = Some s → s ≠ Pending →
  promises (run actions w) !! p = Some s.
Proof.
  revert w. induction actions as [|a actions IH]; intros w Hp Hs; [done|].
  apply IH; [|done]. by apply perform_keeps_settled.
Qed.

Lemma perform_entries_distinct a w :
  entries_allocated w → entries_distinct w → entries_distinct (perform a w).
Proof.
  intros Hallocated Hdistinct k k' e.
  destruct (perform_gasStore a w)
    as [-> | [(functionName & -> & ->) | (env & config & -> & _ & ->)]].
  - apply Hdistinct.
  - destruct (decide (uuidv4 (draws w) = k)) as [<-|Hk];
      destruct (decide (uuidv4 (draws w) = k')) as [<-|Hk'];
      rewrite ?lookup_insert_eq, ?lookup_insert_ne by done; [done| | |apply Hdistinct].
    + intros [= <-] (p & [= Hp] & Hlt)%Hallocated. lia.
    + intros (p & -> & Hlt)%Hallocated [= Hp]. lia.
  - by rewrite lookup_empty.
Qed.

Lemma run_preserves_table actions w :
  entries_allocated w ∧ keys_drawn w ∧ entries_distinct w →
  entries_allocated (run actions w) ∧ keys_drawn (run actions w)
  ∧ entries_distinct (run actions w).
Proof.
  revert w. induction actions as [|a actions IH]; intros w (Ha & Hk & Hd); [done|].
  apply IH. repeat split.
  - by apply perform_entries_allocated.
  - by apply perform_keys_drawn.
  - by apply perform_entries_distinct.
Qed.

Lemma empty_table_ok w :
  gasStore w = ∅ → entries_allocated w ∧ keys_drawn w ∧ entries_distinct w.
Proof.
  intros Hempty. destruct (fresh_invariants w Hempty) as [? ?].
  repeat split; try done. intros k k' e. by rewrite Hempty, lookup_empty.
Qed.

(** X10.  The shape of the table.  On every page reached, by any steps,
    from a page with an empty table: each entry holds the two resolving
    functions of one Promise that exists, each key is an identifier that
    [uuidv4] handed out, and no two keys share a Promise. *)
Theorem run_table_invariants actions w :
  gasStore w = ∅ →
  entries_allocated (run actions w)
  ∧ keys_drawn (run actions w)
  ∧ entries_distinct (run actions w).
Proof.
  intros Hempty. by apply run_preserves_table, empty_table_ok.
Qed.

Lemma perform_orphaned p a w : orphaned p w → orphaned p (perform a w).
Proof.
  intros [Hpending Hnone].
  assert (p < length (promises w))%nat as Hlt by by eapply lookup_lt_Some.
  split.
  - destruct a as [env config | functionName | f args | config event]; simpl.
    + destruct (installs_bridge env) eqn:Hb.
      * by rewrite (Server_constructor_bridge _ _ _ Hb).
      * by rewrite (Server_constructor_frame _ _ _ Hb).
    + by rewrite lookup_app_l.
    + destruct f; simpl; [by rewrite lookup_app_l | done].
    + destruct (receiveMessageHandler_cases config event w)
        as [-> | [[err ->] | (key & e & response & status & _ & He & ->)]];
        [done | done |].
      destruct (Hnone key e He) as (q & -> & Hq).
      destruct (strict_eq_string status "ERROR"); simpl;
        by rewrite ?settle_other by done.
  - intros k e.
    destruct (perform_gasStore a w)
      as [-> | [(functionName & -> & ->) | (env & config & -> & _ & ->)]].
    + apply Hnone.
    + destruct (decide (uuidv4 (draws w) = k)) as [<-|Hk].
      * rewrite lookup_insert_eq. intros [= <-]. eexists. split; [done | lia].
      * rewrite lookup_insert_ne by done. apply Hnone.
    + by rewrite lookup_empty.
Qed.

Lemma run_orphaned p actions w : orphaned p w → orphaned p (run actions w).
Proof.
  revert w. induction actions as [|a actions IH]; intros w Hw; [done|].
  by apply IH, perform_orphaned.
Qed.

(** Between two resets an entry stays put: when [uuidv4] never repeats
    itself, the entry stored under an identifier already drawn survives
    every step that is not a construction falling back to the bridge. *)
Lemma run_keeps_entry actions w n e :
  (∀ m m', uuidv4 m = uuidv4 m' → m = m') →
  (n < draws w)%nat →
  Forall (λ a, ∀ env config, a = Construct env config →
                 installs_bridge env = false) actions →
  gasStore w !! uuidv4 n = Some e →
  gasStore (run actions w) !! uuidv4 n = Some e.
Proof.
  intros Hinj. revert w.
  induction actions as [|a actions IH]; intros w Hn Hall He; [done|].
  inversion Hall as [|? ? Ha Hrest]; subst.
  apply IH; [pose proof (perform_draws a w); lia | done |].
  destruct (perform_gasStore a w)
    as [-> | [(functionName & -> & ->) | (env & config & -> & Hb & _)]].
  - done.
  - rewrite lookup_insert_ne; [done|]. intros Heq%Hinj. lia.
  - rewrite (Ha env config eq_refl) in Hb. discriminate.
Qed.

(** X11.  Calls lost by a second construction.  When a construction
    falls back to the bridge, every Promise that is pending at that
    moment stays pending for good: no later step of the page, no
    response included, can settle it. *)
Theorem reconstruction_orphans env config actions w p :
  installs_bridge env = true →
  promises w !! p = Some Pending →
  promises (run actions (perform (Construct env config) w)) !! p = Some Pending.
Proof.
  intros Hb Hp. apply run_orphaned. simpl.
  rewrite (Server_constructor_bridge _ _ _ Hb). split; [done|].
  intros k e. simpl. by rewrite lookup_empty.
Qed.

(** X12.  An identifier drawn twice.  If [uuidv4] hands the second of
    two property reads the identifier it gave the first, the second
    entry overwrites the first and the Promise of the first read can
    never settle, whatever happens on the page afterwards. *)
Theorem repeated_id_orphans name name' actions w :
  entries_allocated w →
  uuidv4 (S (draws w)) = uuidv4 (draws w) →
  promises (run actions (run [Get name; Get name'] w)) !! length (promises w)
  = Some Pending.
Proof.
  intros Hallocated Hsame. apply run_orphaned. split; simpl.
  - rewrite lookup_app_l by (rewrite length_app; simpl; lia).
    by apply list_lookup_middle.
  - intros k e. rewrite Hsame, insert_insert_eq.
    destruct (decide (uuidv4 (draws w) = k)) as [<-|Hk].
    + rewrite lookup_insert_eq. intros [= <-]. eexists. split; [done|].
      rewrite length_app. simpl. lia.
    + rewrite lookup_insert_ne by done.
      intros (q & -> & Hq)%Hallocated. exists q. split; [done | lia].
Qed.
End Lifecycle.

Section Effects.
Context `{Engine}.

(** ** What leaves the page, and what is registered on it *)

Lemma perform_location_origin a w :
  location_origin (perform a w) = location_origin w.
Proof.
  destruct a as [env config | functionName | f args | config event]; simpl.
  - destruct (installs_bridge env) eqn:Hb.
    + by rewrite (Server_constructor_bridge _ _ _ Hb).
    + by rewrite (Server_constructor_frame _ _ _ Hb).
  - done.
  - by destruct f.
  - apply (receiveMessageHandler_frame config event w).
Qed.

Lemma perform_posted a w :
  posted (perform a w) = posted w ++ requests_sent (location_origin w) a.
Proof.
  destruct a as [env config | functionName | f args | config event]; simpl.
  - rewrite app_nil_r. destruct (installs_bridge env) eqn:Hb.
    + by rewrite (Server_constructor_bridge _ _ _ Hb).
    + by rewrite (Server_constructor_frame _ _ _ Hb).
  - by rewrite app_nil_r.
  - destruct f; simpl; [by rewrite app_nil_r | done].
  - rewrite app_nil_r. apply (receiveMessageHandler_frame config event w).
Qed.

Lemma perform_listeners a w :
  listeners (perform a w) = listeners w ++ listener_added a.
Proof.
  destruct a as [env config | functionName | f args | config event]; simpl.
  - destruct (installs_bridge env) eqn:Hb.
    + by rewrite (Server_constructor_bridge _ _ _ Hb).
    + by rewrite (Server_constructor_frame _ _ _ Hb), app_nil_r.
  - by rewrite app_nil_r.
  - rewrite app_nil_r. by destruct f.
  - rewrite app_nil_r. apply (receiveMessageHandler_frame config event w).
Qed.

(** X13.  Only calls send.  Over any steps of the page, the messages
    handed to the parent frame are those already sent followed by one
    REQUEST per call of a bridge function, in the order of the calls,
    each with the identifier, name and arguments of its call and each
    targeted at the page's own origin.  Constructions, property reads
    and incoming messages send nothing, and nothing sent is taken back. *)
Theorem run_posted actions w :
  posted (run actions w)
  = posted w ++ flat_map (requests_sent (location_origin w)) actions.
Proof.
  revert w. induction actions as [|a actions IH]; intros w.
  - simpl. by rewrite app_nil_r.
  - cbn [run fold_left flat_map]. fold (run actions (perform a w)).
    by rewrite IH, perform_posted, perform_location_origin, <- app_assoc.
Qed.

(** X14.  Listeners pile up.  Over any steps of the page, the message
    listeners are those already registered followed by one per
    construction that fell back to the bridge, in order, each with the
    config of its server; no step removes a listener. *)
Theorem run_listeners actions w :
  listeners (run actions w) = listeners w ++ flat_map listener_added actions.
Proof.
  revert w. induction actions as [|a actions IH]; intros w.
  - simpl. by rewrite app_nil_r.
  - cbn [run fold_left flat_map]. fold (run actions (perform a w)).
    by rewrite IH, perform_listeners, <- app_assoc.
Qed.

(** ** The production wrappers *)

(** X15.  One Promise per production call.  Calling the wrapper of a
    host function once per argument list returns Promises that are all
    new and all different, consecutively numbered from the first free
    number, each created pending; the host receives one call per
    argument list, in order, with the name, the arguments and the two
    resolving functions of that call's own Promise.  Nothing is posted
    to the parent frame and the table is left alone. *)
Theorem call_each_host functionName argss w :
  ∃ w',
    call_each (HostFunction functionName) argss w
    = (Normal (seq (length (promises w)) (length argss)), w')
    ∧ promises w' = promises w ++ replicate (length argss) Pending
    ∧ hostCalls w'
      = hostCalls w ++ host_calls_of functionName (length (promises w)) argss
    ∧ posted w' = posted w
    ∧ gasStore w' = gasStore w.
Proof.
  revert w. induction argss as [|args rest IH]; intros w.
  - exists w. unfold host_calls_of. simpl. by rewrite !app_nil_r.
  - cbn [call_each]. unfold mbind, M_bind at 1. rewrite call_function_host.
    destruct (IH (set_hostCalls
                    (λ l, l ++ [HostCall functionName args
                                  (ResolveOf (length (promises w)))
                                  (RejectOf (length (promises w)))])
                    (set_promises (λ ps, ps ++ [Pending]) w)))
      as (w' & Hcall & Hpromises & Hhost & Hposted & Hstore).
    exists w'. unfold mbind, M_bind at 1. rewrite Hcall.
    simpl in *. rewrite length_app in *. simpl in *.
    replace (length (promises w) + 1)%nat with (S (length (promises w))) in * by lia.
    repeat split; try done.
    + rewrite Hpromises. by rewrite <- app_assoc.
    + rewrite Hhost, <- app_assoc. unfold host_calls_of. simpl.
      rewrite Nat.add_0_r. do 2 f_equal.
      apply imap_ext. intros i x _. simpl. by rewrite Nat.add_succ_r.
Qed.

(** ** The ways construction can end *)

(** X16.  The only error that leaves the constructor.  When the
    host's functions can be enumerated, construction does not throw.
    When enumerating them throws an [Error], construction throws exactly
    when the string form of that error is that of the missing-host
    reference error and evaluating [process?.env.NODE_ENV] then throws
    in its turn; the error that comes out is the second one.  Either
    way a throwing construction leaves the page as it was. *)
Theorem Server_constructor_throws_iff env config w :
  (∀ keys, run_keys env = Normal keys →
     ∃ server, Server_constructor env config w = (Normal server, w))
  ∧ (∀ err, run_keys env = Throw err →
       ∀ thrown,
         fst (Server_constructor env config w) = Throw thrown
         ↔ error_toString err = "ReferenceError: google is not defined"
           ∧ NODE_ENV env = Throw thrown)
  ∧ (∀ thrown, fst (Server_constructor env config w) = Throw thrown →
       snd (Server_constructor env config w) = w).
Proof.
  unfold Server_constructor. split; [|split].
  - intros keys ->. by eexists.
  - intros err -> thrown.
    destruct (String.eqb_spec (error_toString err)
                "ReferenceError: google is not defined") as [Heq|Hne].
    + unfold mbind, M_bind, lift.
      destruct (NODE_ENV env) as [node_env|e]; simpl.
      * destruct (strict_eq_string node_env "development");
          (split; [done | by intros [_ [=]]]).
      * split; [by intros [= ->] | by intros [_ [= ->]]].
    + split; [done | by intros [? _]].
  - intros thrown. destruct (run_keys env) as [keys|err]; [done|].
    destruct (String.eqb (error_toString err) _); [|done].
    unfold mbind, M_bind, lift.
    destruct (NODE_ENV env) as [node_env|e]; simpl; [|done].
    by destruct (strict_eq_string node_env "development").
Qed.

(** X17.  When the bridge is chosen.  [serverFunctions] is the bridge
    proxy exactly when enumerating the host's functions threw an error
    whose string form is that of the missing-host reference error and
    [NODE_ENV] is the string development.  In particular a host that can
    be enumerated always gets the production wrappers, development build
    or not, and the match is on the string form of the error alone. *)
Theorem Server_constructor_bridge_iff env config w :
  (∃ server, fst (Server_constructor env config w) = Normal server
             ∧ _serverFunctions server = BridgeProxy)
  ↔ ∃ err, run_keys env = Throw err
           ∧ error_toString err = "ReferenceError: google is not defined"
           ∧ NODE_ENV env = Normal (VStr "development").
Proof.
  unfold Server_constructor.
  destruct (run_keys env) as [keys|err].
  { split; [by intros (? & [= <-] & ?) | by intros (? & [=] & _)]. }
  destruct (String.eqb_spec (error_toString err)
              "ReferenceError: google is not defined") as [Heq|Hne].
  - unfold mbind, M_bind, lift.
    destruct (NODE_ENV env) as [node_env|e]; simpl.
    + destruct (strict_eq_string node_env "development") eqn:Hdev.
      * apply strict_eq_string_true in Hdev as ->.
        split; [eauto | intros _; by eexists].
      * apply strict_eq_string_false in Hdev.
        split; [by intros (? & [= <-] & ?) | intros (? & _ & _ & [= ?]); done].
    + split; [by intros (? & [=] & _) | by intros (? & _ & _ & [=])].
  - split; [by intros (? & [= <-] & ?)|]. intros (err' & [= <-] & Herr & _). done.
Qed.
End Effects.

(** * Further worked examples *)

(** A server constructed without a config never hears a response. *)
Lemma receiveMessageHandler_unconfigured_witness :
  @receiveMessageHandler sample_engine None
    (response_event "uuid-0" "OK" (VNum 42)) pending_page
  = (Normal tt, pending_page).
Proof.
  apply (@receiveMessageHandler_unconfigured sample_engine); simpl; discriminate.
Defined.

(** [window.postMessage(null, origin)] from the dev server's origin. *)
Lemma receiveMessageHandler_nullish_witness :
  checkAllowList (config_allowedDevelopmentDomains localhost_config)
    "https://localhost:3000" = true
  ∧ ∃ message,
      @receiveMessageHandler sample_engine localhost_config
        {| origin := "https://localhost:3000"; data := VNull |} pending_page
      = (Throw (TypeError message), pending_page).
Proof.
  split; [reflexivity|].
  apply (@receiveMessageHandler_nullish sample_engine localhost_config
           {| origin := "https://localhost:3000"; data := VNull |} pending_page).
  - reflexivity.
  - left. reflexivity.
Defined.

Example null_payload_TypeError :
  fst (@receiveMessageHandler sample_engine localhost_config
         {| origin := "https://localhost:3000"; data := VNull |} pending_page)
  = Throw (TypeError "Cannot read properties of null (reading 'type')").
Proof. reflexivity. Qed.

(** The same message is harmless from a foreign origin, and throws from
    an allowed one. *)
Lemma receiveMessageHandler_throws_iff_witness :
  fst (@receiveMessageHandler sample_engine localhost_config
         {| origin := "https://evil.example"; data := VNull |} pending_page)
  = Normal tt
  ∧ ∃ err, fst (@receiveMessageHandler sample_engine localhost_config
                  {| origin := "https://localhost:3000"; data := VNull |} pending_page)
           = Throw err.
Proof.
  split.
  - apply (proj1 (@receiveMessageHandler_throws_iff sample_engine localhost_config
                    {| origin := "https://evil.example"; data := VNull |} pending_page)).
    reflexivity.
  - apply (proj1 (proj2 (@receiveMessageHandler_throws_iff sample_engine localhost_config
                    {| origin := "https://localhost:3000"; data := VNull |} pending_page)
                   eq_refl)).
    left. by eexists.
Defined.

(** A call cut off by a second construction: the request went out and
    the Promise is pending, but the table no longer has its entry, so the
    response for its identifier, from an allowed origin, settles nothing. *)
Lemma response_after_reconstruction_is_lost :
  reconstructed_page
  = @run sample_engine
      [Construct dev_environment localhost_config;
       Get "myFunc";
       Call (BridgeFunction "uuid-0" "myFunc" 0) [VNum 1; VNum 2];
       Construct dev_environment localhost_config] fresh_page
  ∧ posted reconstructed_page
    = [(Request "REQUEST" "uuid-0" "myFunc" [VNum 1; VNum 2], "https://localhost:3000")]
  ∧ promises reconstructed_page !! 0 = Some Pending
  ∧ checkAllowList (config_allowedDevelopmentDomains localhost_config)
      (origin (response_event "uuid-0" "OK" (VNum 42))) = true
  ∧ promises (snd (@receiveMessageHandler sample_engine localhost_config
                     (response_event "uuid-0" "OK" (VNum 42)) reconstructed_page)) !! 0
    ≠ Some (Fulfilled (VNum 42))
  ∧ promises (snd (@receiveMessageHandler sample_engine localhost_config
                     (response_event "uuid-0" "ERROR" (VStr "boom")) reconstructed_page)) !! 0
    ≠ Some (Rejected (VStr "boom"))
  ∧ promises (snd (@receiveMessageHandler sample_engine localhost_config
                     (response_event "uuid-0" "OK" (VNum 42)) reconstructed_page)) !! 0
    = Some Pending.
Proof. repeat split; discriminate. Qed.

(** A second response for [uuid-0], an error this time, changes nothing. *)
Lemma receiveMessageHandler_after_settling_witness :
  fst (@receiveMessageHandler sample_engine localhost_config
         (response_event "uuid-0" "ERROR" (VStr "late")) settled_page)
  = Normal tt
  ∧ promises (snd (@receiveMessageHandler sample_engine localhost_config
                     (response_event "uuid-0" "ERROR" (VStr "late")) settled_page))
    = [Fulfilled (VNum 42)].
Proof.
  apply (@receiveMessageHandler_after_settling sample_engine localhost_config
           (response_event "uuid-0" "ERROR" (VStr "late")) settled_page "uuid-0" 0).
  - reflexivity.
  - reflexivity.
  - discriminate.
Defined.

Lemma two_calls_page_table :
  entries_allocated two_calls_page ∧ @keys_drawn sample_engine two_calls_page
  ∧ entries_distinct two_calls_page.
Proof.
  unfold two_calls_page, pending_page. rewrite <- (@run_app sample_engine).
  by apply (@run_preserves_table sample_engine), (@empty_table_ok sample_engine).
Qed.

(** With two calls outstanding, the response for the second leaves the
    first pending. *)
Lemma receiveMessageHandler_other_call_witness :
  promises (snd (@receiveMessageHandler sample_engine localhost_config
                   (response_event "uuid-1" "OK" (VStr "done")) two_calls_page)) !! 0
  = Some Pending.
Proof.
  rewrite (@receiveMessageHandler_other_call sample_engine localhost_config
             (response_event "uuid-1" "OK" (VStr "done")) two_calls_page
             "uuid-1" "uuid-0" 0).
  - reflexivity.
  - apply two_calls_page_table.
  - apply two_calls_page_table.
  - reflexivity.
  - reflexivity.
  - discriminate.
Defined.

(** The table is global: the listener of a second server whose
    allow-list admits every origin settles a call issued through the
    first server, on a response from a foreign frame. *)
Lemma bridge_round_trip_witness :
  ∃ f w1 w2 w3 promise,
    @serverFunctions_get sample_engine bridge_server "myFunc" bridge_page
    = (Normal (Some f), w1)
    ∧ call_function f [VNum 1; VNum 2] w1 = (Normal promise, w2)
    ∧ @receiveMessageHandler sample_engine permissive_config
        (foreign_response "ERROR" (VStr "boom")) w2 = (Normal tt, w3)
    ∧ promises w3 !! promise = Some (Rejected (VStr "boom")).
Proof.
  destruct (@bridge_round_trip sample_engine bridge_server "myFunc" [VNum 1; VNum 2]
              permissive_config (foreign_response "ERROR" (VStr "boom"))
              (VStr "ERROR") (VStr "boom") bridge_page
              eq_refl eq_refl eq_refl eq_refl eq_refl eq_refl)
    as (f & w1 & w2 & w3 & promise & Hget & Hcall & _ & Hreceive & Hrejected & _).
  exists f, w1, w2, w3, promise. repeat split; try done. by apply Hrejected.
Defined.

Example missing_status_fulfils :
  promises (@perform sample_engine
              (Receive localhost_config
                 {| origin := "https://localhost:3000";
                    data := VObj [("type", VStr "RESPONSE"); ("id", VStr "uuid-0")] |})
              pending_page)
  = [Fulfilled VUndefined].
Proof. reflexivity. Qed.

Lemma run_keeps_settled_witness :
  promises (@run sample_engine
              (Receive localhost_config (response_event "uuid-0" "ERROR" (VStr "late"))
               :: Construct dev_environment None :: sample_actions)
              settled_page) !! 0
  = Some (Fulfilled (VNum 42)).
Proof.
  apply (@run_keeps_settled sample_engine); [reflexivity | discriminate].
Defined.

Lemma run_table_invariants_witness :
  entries_allocated (@run sample_engine sample_actions fresh_page)
  ∧ @keys_drawn sample_engine (@run sample_engine sample_actions fresh_page)
  ∧ entries_distinct (@run sample_engine sample_actions fresh_page).
Proof. apply (@run_table_invariants sample_engine). reflexivity. Defined.

(** After a second [new Server()] in development, the response for the
    call issued before it comes too late. *)
Lemma reconstruction_orphans_witness :
  promises (@run sample_engine
              [Receive localhost_config (response_event "uuid-0" "OK" (VNum 42))]
              (@perform sample_engine (Construct dev_environment localhost_config)
                 pending_page)) !! 0
  = Some Pending.
Proof.
  apply (@reconstruction_orphans sample_engine); reflexivity.
Defined.

(** With a generator that repeats itself, the response settles the
    second read's Promise and the first stays pending. *)
Lemma repeated_id_orphans_witness :
  promises (@run repeating_engine
              [Receive localhost_config (response_event "same-id" "OK" (VNum 42))]
              (@run repeating_engine [Get "first"; Get "second"] bridge_page))
    !! length (promises bridge_page)
  = Some Pending.
Proof.
  apply (@repeated_id_orphans repeating_engine).
  - apply bridge_page_invariants.
  - reflexivity.
Defined.

Example repeated_id_settles_second :
  promises (@run repeating_engine
              [Get "first"; Get "second";
               Receive localhost_config (response_event "same-id" "OK" (VNum 42))]
              bridge_page)
  = [Pending; Fulfilled (VNum 42)].
Proof. reflexivity. Qed.

Example sample_requests_in_order :
  map (λ m, (req_id (fst m), req_functionName (fst m)))
      (posted (@run sample_engine sample_actions pending_page))
  = [("uuid-0", "myFunc"); ("uuid-1", "other")].
Proof. reflexivity. Qed.

Example two_dev_servers_two_listeners :
  listeners (@run sample_engine
               [Construct dev_environment localhost_config;
                Construct host_environment None;
                Construct dev_environment permissive_config] fresh_page)
  = [localhost_config; permissive_config].
Proof. reflexivity. Qed.

Example host_calls_get_their_own_promises :
  fst (call_each (HostFunction "addSheet") [[VStr "a"]; [VStr "b"]] fresh_page)
  = Normal [0; 1].
Proof. reflexivity. Qed.

(** In a page where [process] is not declared, the fallback itself fails. *)
Lemma Server_constructor_throws_iff_witness :
  fst (Server_constructor unbundled_environment localhost_config fresh_page)
  = Throw process_is_not_defined
  ∧ ∃ server,
      Server_constructor host_environment localhost_config fresh_page
      = (Normal server, fresh_page).
Proof.
  split.
  - apply (proj1 (proj2 (Server_constructor_throws_iff unbundled_environment
                           localhost_config fresh_page))
             google_is_not_defined eq_refl process_is_not_defined).
    split; reflexivity.
  - apply (proj1 (Server_constructor_throws_iff host_environment
                    localhost_config fresh_page)
             ["withFailureHandler"; "withLogger"; "withSuccessHandler";
              "withUserObject"; "getSheetsData"; "addSheet"]).
    reflexivity.
Defined.
